(** * pty_spawn.c: PTY allocation, child spawning, resizing and exit waiting

    A shallow embedding of [src/Hex1b/Terminal/native/pty_spawn.c].

    The four C functions ([pty_spawn], [pty_open], [pty_resize], [pty_wait])
    are sequences of system calls with a little control flow in between.
    They are embedded as computations in a state monad over the part of the
    process state the code can observe or change (errno, the signal mask,
    the signal dispositions, the descriptor table, the caller's output
    cells) together with a log of the system calls issued.  What the
    operating system answers to each call is not decided by the program:
    every function takes a record of answers, one per call site, and the
    theorems quantify over all of them. *)

From Stdlib Require Import ZArith List String Bool Lia.
Import ListNotations.
Open Scope Z_scope.

(** ** C integers *)

Definition INT_MAX : Z := 2147483647.
Definition INT_MIN : Z := -2147483648.

(** Value of an [int] expression whose mathematical result is [z]. *)
Definition wrap_int (z : Z) : Z := (z + 2 ^ 31) mod 2 ^ 32 - 2 ^ 31.

(** Conversion to [unsigned short], the type of the [struct winsize] fields. *)
Definition to_ushort (z : Z) : Z := z mod 2 ^ 16.

(** Conversion to [signed char] (used by the Linux wait-status macros). *)
Definition to_schar (z : Z) : Z := (z + 2 ^ 7) mod 2 ^ 8 - 2 ^ 7.

(** ** What the system headers provide

    The constants and macros below come from <errno.h>, <signal.h>,
    <sys/wait.h> and <sys/ioctl.h>, not from the repository.  The code is
    embedded over any platform that provides them. *)

Class Platform : Type := {
  EINVAL : Z;
  NSIG : Z;
  SIGKILL : Z;
  SIGSTOP : Z;
  (** [None] when the header does not define the macro: the
      [#ifdef TIOCSCTTY] block is then compiled out. *)
  TIOCSCTTY : option Z;
  WIFEXITED : Z -> bool;
  WEXITSTATUS : Z -> Z;
  WIFSIGNALED : Z -> bool;
  WTERMSIG : Z -> Z
}.

(** The POSIX reading of the wait-status macros: an exit status is the low
    eight bits of what the child passed to [_exit], a signal number fits in
    seven bits, and a status is not both an exit and a signal death. *)
Record PosixWaitMacros (P : Platform) : Prop := {
  WEXITSTATUS_range : forall s, 0 <= WEXITSTATUS s <= 255;
  WTERMSIG_range : forall s, 0 <= WTERMSIG s <= 127;
  WIFEXITED_not_signaled : forall s, WIFEXITED s = true -> WIFSIGNALED s = false
}.

(** ** Process state *)

Inductive disposition : Type :=
| SIG_DFL
| SIG_IGN
| Handler (h : nat).

Record winsize : Type := mkWinsize {
  ws_row : Z;
  ws_col : Z;
  ws_xpixel : Z;
  ws_ypixel : Z
}.

(** System and library calls issued by the four functions. *)
Inductive call : Type :=
| Sigmask (set : list Z)               (* pthread_sigmask(SIG_SETMASK, set, old) *)
| Fork
| Sigaction (sig : Z) (d : disposition)
| Setsid
| Open (name : string)                 (* open(name, O_RDWR) *)
| IoctlSCTTY (fd request arg : Z)
| Dup2 (oldfd newfd : Z)
| Close (fd : Z)
| Chdir (dir : string)
| Execve (path : string) (argv env : list string)
| PosixOpenpt                          (* posix_openpt(O_RDWR | O_NOCTTY) *)
| Grantpt (fd : Z)
| Unlockpt (fd : Z)
| Ptsname (fd : Z)
| IoctlSWINSZ (fd : Z) (ws : winsize)
| Waitpid (pid : Z) (nohang : bool)
| Usleep (usec : Z).

Record event : Type := Ev { ev_call : call; ev_ret : Z }.

(** Cells of the caller's memory written through the [out_*] pointers. *)
Inductive cell : Type :=
| CInt (z : Z)
| CStr (s : string).

Definition loc : Type := nat.

Record proc : Type := mkProc {
  errno : Z;
  sigmask : list Z;                    (* blocked signals *)
  handlers : Z -> disposition;
  fds : list Z;                        (* open descriptors *)
  environ : list string;
  mem : list (loc * cell);             (* writes through out pointers, newest first *)
  log : list event                     (* calls issued, newest first *)
}.

Definition history (st : proc) : list event := rev (log st).

Definition with_errno (e : Z) (st : proc) : proc :=
  mkProc e (sigmask st) (handlers st) (fds st) (environ st) (mem st) (log st).

Definition with_sigmask (m : list Z) (st : proc) : proc :=
  mkProc (errno st) m (handlers st) (fds st) (environ st) (mem st) (log st).

Definition with_handlers (h : Z -> disposition) (st : proc) : proc :=
  mkProc (errno st) (sigmask st) h (fds st) (environ st) (mem st) (log st).

Definition with_fds (l : list Z) (st : proc) : proc :=
  mkProc (errno st) (sigmask st) (handlers st) l (environ st) (mem st) (log st).

Definition with_mem (m : list (loc * cell)) (st : proc) : proc :=
  mkProc (errno st) (sigmask st) (handlers st) (fds st) (environ st) m (log st).

Definition with_log (l : list event) (st : proc) : proc :=
  mkProc (errno st) (sigmask st) (handlers st) (fds st) (environ st) (mem st) l.

(** ** Answers of the operating system *)

(** The value a call returns and the value it leaves in [errno], if it
    writes one. *)
Record response : Type := Resp { ret : Z; sets_errno : option Z }.

Definition ok (v : Z) : response := Resp v None.
Definition fails (e : Z) : response := Resp (-1) (Some e).

Definition errno_after (r : response) (e : Z) : Z :=
  match sets_errno r with
  | Some e' => e'
  | None => e
  end.

(** ** The monad: state, plus the ways a process stops running this code *)

Inductive outcome (A : Type) : Type :=
| Returned (a : A)                     (* the C function returned [a] *)
| Exited (code : Z)                    (* _exit(code) *)
| Execed (path : string) (argv env : list string)  (* execve succeeded *)
| OutOfFuel.                           (* the loop bound of the model ran out *)

Arguments Returned {A} a.
Arguments Exited {A} code.
Arguments Execed {A} path argv env.
Arguments OutOfFuel {A}.

Definition M (A : Type) : Type := proc -> outcome A * proc.

Definition mret {A} (a : A) : M A := fun st => (Returned a, st).

Definition bind {A B} (m : M A) (k : A -> M B) : M B :=
  fun st =>
    match m st with
    | (Returned a, st') => k a st'
    | (Exited c, st') => (Exited c, st')
    | (Execed p av ev, st') => (Execed p av ev, st')
    | (OutOfFuel, st') => (OutOfFuel, st')
    end.

Declare Scope pty_scope.
Delimit Scope pty_scope with pty.
Notation "x <- m ;; k" := (bind m (fun x => k))
  (at level 61, m at next level, right associativity) : pty_scope.
Notation "m ;; k" := (bind m (fun _ => k))
  (at level 61, right associativity) : pty_scope.
Open Scope pty_scope.

Definition _exit {A} (code : Z) : M A := fun st => (Exited code, st).

Definition get_errno : M Z := fun st => (Returned (errno st), st).
Definition set_errno (e : Z) : M unit := fun st => (Returned tt, with_errno e st).
Definition get_environ : M (list string) := fun st => (Returned (environ st), st).

(** [*p = c] for a non-null output pointer [p]. *)
Definition store (p : loc) (c : cell) : M unit :=
  fun st => (Returned tt, with_mem ((p, c) :: mem st) st).

Definition set_handler (sig : Z) (d : disposition) (h : Z -> disposition)
  : Z -> disposition :=
  fun s => if s =? sig then d else h s.

(** Effect of a call that returned [r] on the process state.
    [pthread_sigmask] installs the mask; [sigaction] installs the disposition
    when it succeeds; [open], [posix_openpt] and [dup2] add a descriptor when
    they succeed; [close] releases the descriptor whatever it returns (an
    interrupted [close] has released it too).  The other calls change
    nothing the four functions look at. *)
Definition kernel_effect (c : call) (r : Z) (st : proc) : proc :=
  match c with
  | Sigmask set => with_sigmask set st
  | Sigaction sig d =>
      if r =? 0 then with_handlers (set_handler sig d (handlers st)) st else st
  | Open _ | PosixOpenpt =>
      if 0 <=? r then with_fds (r :: fds st) st else st
  | Dup2 _ newfd =>
      if 0 <=? r then with_fds (newfd :: remove Z.eq_dec newfd (fds st)) st else st
  | Close fd => with_fds (remove Z.eq_dec fd (fds st)) st
  | _ => st
  end.

(** Issue call [c]; the system answers [r]. *)
Definition sys (c : call) (r : response) : M Z :=
  fun st =>
    let st1 := with_errno (errno_after r (errno st)) st in
    let st2 := kernel_effect c (ret r) st1 in
    (Returned (ret r), with_log (Ev c (ret r) :: log st2) st2).

(** [pthread_sigmask(SIG_SETMASK, &set, &old)]: cannot fail for a valid
    [how]; yields the previous mask.  [clobber] is what the library call
    leaves in [errno], if anything. *)
Definition pthread_sigmask (set : list Z) (clobber : option Z) : M (list Z) :=
  old <- (fun st => (Returned (sigmask st), st)) ;;
  sys (Sigmask set) (Resp 0 clobber) ;;
  mret old.

(** [execve] returns only when it fails. *)
Definition execve (path : string) (argv env : list string) (failure : option Z)
  : M Z :=
  fun st =>
    match failure with
    | None => (Execed path argv env,
               with_log (Ev (Execve path argv env) 0 :: log st) st)
    | Some e => sys (Execve path argv env) (fails e) st
    end.

(** ** pty_spawn (lines 57-162) *)

Section Spawn.
Context {P : Platform}.

(** Arguments of [pty_spawn]; [None] is a null pointer. *)
Record spawn_args : Type := mkSpawnArgs {
  path : option string;
  argv : option (list string);
  envp : option (list string);
  slave_name : option string;
  working_dir : option string;
  out_pid : option loc
}.

(** Answers of the system to the calls of one run of [pty_spawn], one per
    call site ([sigaction] by signal number, [dup2] by target descriptor). *)
Record spawn_os : Type := mkSpawnOs {
  block_clobber : option Z;            (* line 73 *)
  fork_r : response;                   (* line 75 *)
  restore_fail_clobber : option Z;     (* line 80 *)
  restore_child_clobber : option Z;    (* line 89 *)
  sigaction_r : Z -> response;         (* line 98 *)
  setsid_r : response;                 (* line 103 *)
  open_r : response;                   (* line 110 *)
  sctty_r : response;                  (* line 118 *)
  sctty_force_r : response;            (* line 120 *)
  dup2_r : Z -> response;              (* lines 125, 128, 131 *)
  close_r : response;                  (* line 137 *)
  chdir_r : response;                  (* line 142 *)
  execve_fails : option Z;             (* line 149 *)
  restore_parent_clobber : option Z    (* line 158 *)
}.

Definition STDIN_FILENO : Z := 0.
Definition STDOUT_FILENO : Z := 1.
Definition STDERR_FILENO : Z := 2.

(** The values [sig] takes in [for (int sig = 1; sig < NSIG; sig++)]. *)
Definition signal_numbers : list Z := map Z.of_nat (seq 1 (Z.to_nat (NSIG - 1))).

(** [sigfillset]: the set of all signals. *)
Definition sigfillset : list Z := signal_numbers.

(** Lines 96-99, over the signal numbers [sigs] still to visit. *)
Fixpoint reset_handlers (os : spawn_os) (sigs : list Z) : M unit :=
  match sigs with
  | [] => mret tt
  | sig :: rest =>
      if (sig =? SIGKILL) || (sig =? SIGSTOP) then reset_handlers os rest
      else
        sys (Sigaction sig SIG_DFL) (sigaction_r os sig) ;;
        reset_handlers os rest
  end.

(** Lines 116-122. *)
Definition set_controlling_tty (os : spawn_os) (slave_fd : Z) : M unit :=
  match TIOCSCTTY with
  | Some request =>
      r <- sys (IoctlSCTTY slave_fd request 0) (sctty_r os) ;;
      if r <? 0 then
        sys (IoctlSCTTY slave_fd request 1) (sctty_force_r os) ;;
        mret tt
      else mret tt
  | None => mret tt
  end.

(** Lines 140-145. *)
Definition change_directory (os : spawn_os) (working_dir : option string) : M unit :=
  match working_dir with
  | Some (String c d) =>
      r <- sys (Chdir (String c d)) (chdir_r os) ;;
      if r <? 0 then mret tt else mret tt
  | _ => mret tt
  end.

(** The child branch from [setsid] on, lines 101-152. *)
Definition child_setup (os : spawn_os)
    (path : string) (argv : list string) (envp : option (list string))
    (slave_name : string) (working_dir : option string) : M Z :=
  r <- sys Setsid (setsid_r os) ;;
  if r <? 0 then _exit 127 else
  slave_fd <- sys (Open slave_name) (open_r os) ;;
  if slave_fd <? 0 then _exit 127 else
  set_controlling_tty os slave_fd ;;
  r0 <- sys (Dup2 slave_fd STDIN_FILENO) (dup2_r os STDIN_FILENO) ;;
  if r0 <? 0 then _exit 127 else
  r1 <- sys (Dup2 slave_fd STDOUT_FILENO) (dup2_r os STDOUT_FILENO) ;;
  if r1 <? 0 then _exit 127 else
  r2 <- sys (Dup2 slave_fd STDERR_FILENO) (dup2_r os STDERR_FILENO) ;;
  if r2 <? 0 then _exit 127 else
  (if slave_fd >? STDERR_FILENO
   then sys (Close slave_fd) (close_r os) ;; mret tt
   else mret tt) ;;
  change_directory os working_dir ;;
  env <- match envp with
         | Some e => mret e
         | None => get_environ
         end ;;
  execve path argv env (execve_fails os) ;;
  _exit 127.

(** The child branch, lines 86-152. *)
Definition spawn_child (os : spawn_os) (old_signals : list Z)
    (path : string) (argv : list string) (envp : option (list string))
    (slave_name : string) (working_dir : option string) : M Z :=
  pthread_sigmask old_signals (restore_child_clobber os) ;;
  reset_handlers os signal_numbers ;;
  child_setup os path argv envp slave_name working_dir.

Definition pty_spawn (os : spawn_os) (a : spawn_args) : M Z :=
  match path a, argv a, slave_name a, out_pid a with
  | Some path, Some argv, Some slave_name, Some out_pid =>
      let all_signals := sigfillset in
      old_signals <- pthread_sigmask all_signals (block_clobber os) ;;
      pid <- sys Fork (fork_r os) ;;
      if pid =? -1 then
        saved_errno <- get_errno ;;
        pthread_sigmask old_signals (restore_fail_clobber os) ;;
        set_errno saved_errno ;;
        mret (-1)
      else if pid =? 0 then
        spawn_child os old_signals path argv (envp a) slave_name (working_dir a)
      else
        pthread_sigmask old_signals (restore_parent_clobber os) ;;
        store out_pid (CInt pid) ;;
        mret 0
  | _, _, _, _ =>
      set_errno EINVAL ;;
      mret (-1)
  end.

End Spawn.

(** ** pty_open (lines 175-234) and pty_resize (lines 245-253) *)

Section Open.
Context {P : Platform}.

Record open_os : Type := mkOpenOs {
  openpt_r : response;                 (* line 188 *)
  grantpt_r : response;                (* line 194 *)
  unlockpt_r : response;               (* line 202 *)
  ptsname_r : response;                (* line 210: the pointer, 0 for NULL *)
  ptsname_str : string;                (* the string it points to *)
  cleanup_close_r : response;          (* lines 196, 204, 213 *)
  winsz_r : response                   (* line 229 *)
}.

(** [struct winsize ws] after the four assignments of lines 225-228 and
    248-251: the [int] arguments are converted to the [unsigned short]
    fields. *)
Definition make_winsize (width height : Z) : winsize :=
  {| ws_row := to_ushort height;
     ws_col := to_ushort width;
     ws_xpixel := 0;
     ws_ypixel := 0 |}.

(** The clean-up of lines 195-198, 203-206 and 212-215. *)
Definition close_keeping_errno (os : open_os) (master_fd : Z) : M Z :=
  saved_errno <- get_errno ;;
  sys (Close master_fd) (cleanup_close_r os) ;;
  set_errno saved_errno ;;
  mret (-1).

(** Lines 219-220: the buffer receives at most [slave_name_len - 1]
    characters of the name and is NUL-terminated. *)
Definition copy_name (slave_name : string) (slave_name_len : Z) : string :=
  substring 0 (Z.to_nat (slave_name_len - 1)) slave_name.

Definition pty_open (os : open_os)
    (out_master_fd out_slave_name : option loc)
    (slave_name_len width height : Z) : M Z :=
  match out_master_fd, out_slave_name, slave_name_len <? 256 with
  | Some out_master_fd, Some out_slave_name, false =>
      master_fd <- sys PosixOpenpt (openpt_r os) ;;
      if master_fd <? 0 then mret (-1) else
      g <- sys (Grantpt master_fd) (grantpt_r os) ;;
      if g <? 0 then close_keeping_errno os master_fd else
      u <- sys (Unlockpt master_fd) (unlockpt_r os) ;;
      if u <? 0 then close_keeping_errno os master_fd else
      slave_name <- sys (Ptsname master_fd) (ptsname_r os) ;;
      if slave_name =? 0 then close_keeping_errno os master_fd else
      store out_slave_name (CStr (copy_name (ptsname_str os) slave_name_len)) ;;
      (if (width >? 0) && (height >? 0)
       then sys (IoctlSWINSZ master_fd (make_winsize width height)) (winsz_r os) ;;
            mret tt
       else mret tt) ;;
      store out_master_fd (CInt master_fd) ;;
      mret 0
  | _, _, _ =>
      set_errno EINVAL ;;
      mret (-1)
  end.

Definition pty_resize (r : response) (master_fd width height : Z) : M Z :=
  sys (IoctlSWINSZ master_fd (make_winsize width height)) r.

End Open.

(** ** pty_wait (lines 264-315) *)

Section Wait.
Context {P : Platform}.

Record wait_os : Type := mkWaitOs {
  wait_r : response;                   (* line 269 *)
  wait_status : Z;                     (* the status it stores *)
  poll_r : nat -> response;            (* line 288, by iteration *)
  poll_status : nat -> Z;
  usleep_r : nat -> response           (* line 309, by iteration *)
}.

(** Lines 273-279 and 297-303: the value assigned to [*out_status]. *)
Definition exit_status (status : Z) : Z :=
  if WIFEXITED status then WEXITSTATUS status
  else if WIFSIGNALED status then wrap_int (128 + WTERMSIG status)
  else -1.

(** Lines 272-280 and 296-304. *)
Definition report_status (out_status : option loc) (status : Z) : M unit :=
  match out_status with
  | Some p => store p (CInt (exit_status status))
  | None => mret tt
  end.

(** The loop of lines 286-311, entered for the [i]-th time with the value
    [elapsed] of the counter; [fuel] bounds the iterations of the model. *)
Fixpoint poll_loop (os : wait_os) (pid timeout_ms : Z) (out_status : option loc)
    (fuel : nat) (i : nat) (elapsed : Z) : M Z :=
  if elapsed <? timeout_ms then
    match fuel with
    | O => fun st => (OutOfFuel, st)
    | S fuel' =>
        result <- sys (Waitpid pid true) (poll_r os i) ;;
        if result <? 0 then mret (-1)
        else if result >? 0 then
          report_status out_status (poll_status os i) ;;
          mret 0
        else
          sys (Usleep 10000) (usleep_r os i) ;;
          poll_loop os pid timeout_ms out_status fuel' (S i) (wrap_int (elapsed + 10))
    end
  else mret 1.

Definition pty_wait (os : wait_os) (fuel : nat)
    (pid timeout_ms : Z) (out_status : option loc) : M Z :=
  if timeout_ms <? 0 then
    r <- sys (Waitpid pid false) (wait_r os) ;;
    if r <? 0 then mret (-1) else
    report_status out_status (wait_status os) ;;
    mret 0
  else
    poll_loop os pid timeout_ms out_status fuel 0%nat 0.

End Wait.

(** ** Linux (glibc, x86-64) values of the header constants and macros *)

Module Linux.

Definition wtermsig (s : Z) : Z := Z.land s 127.
Definition wexitstatus (s : Z) : Z := Z.shiftr (Z.land s 65280) 8.
Definition wifexited (s : Z) : bool := wtermsig s =? 0.
Definition wifsignaled (s : Z) : bool :=
  0 <? Z.shiftr (to_schar (Z.land s 127 + 1)) 1.

Definition platform : Platform := {|
  EINVAL := 22;
  NSIG := 65;
  SIGKILL := 9;
  SIGSTOP := 19;
  TIOCSCTTY := Some 21518;
  WIFEXITED := wifexited;
  WEXITSTATUS := wexitstatus;
  WIFSIGNALED := wifsignaled;
  WTERMSIG := wtermsig
|}.

End Linux.

(** ** Vocabulary of the statements *)

(** The process state [st'] differs from [st] in [errno] alone, which holds
    EINVAL: no call was logged, and the descriptor table, the signal mask
    and dispositions and the output cells are untouched. *)
Definition only_einval_set {P : Platform} (st st' : proc) : Prop :=
  errno st' = EINVAL /\
  log st' = log st /\ fds st' = fds st /\ sigmask st' = sigmask st /\
  handlers st' = handlers st /\ environ st' = environ st /\ mem st' = mem st.

(** A window size is pushed by one of the calls [issued]. *)
Definition geometry_pushed (issued : list event) : Prop :=
  exists fd ws r, In (Ev (IoctlSWINSZ fd ws) r) issued.

(** The step of [pty_open] whose failure is detected first, of the three
    that follow the opening of the master. *)
Definition failed_step (os : open_os) : response :=
  if ret (grantpt_r os) <? 0 then grantpt_r os
  else if ret (unlockpt_r os) <? 0 then unlockpt_r os
  else ptsname_r os.

Definition with_winsz_r (r : response) (os : open_os) : open_os :=
  mkOpenOs (openpt_r os) (grantpt_r os) (unlockpt_r os) (ptsname_r os)
           (ptsname_str os) (cleanup_close_r os) r.

(** The first [k] polls of a bounded wait find the child still running. *)
Definition idle_before {P : Platform} (os : wait_os) (k : nat) : Prop :=
  forall j, (j < k)%nat -> ret (poll_r os j) = 0.

(** The calls of the polling rounds [i], ..., [i + k - 1] when each of them
    finds the child still running, newest first: a non-blocking [waitpid]
    followed by a sleep of 10000 microseconds. *)
Fixpoint idle_rounds {P : Platform} (os : wait_os) (pid : Z) (i k : nat)
  : list event :=
  match k with
  | O => []
  | S k' =>
      idle_rounds os pid (S i) k' ++
      [Ev (Usleep 10000) (ret (usleep_r os i));
       Ev (Waitpid pid true) (ret (poll_r os i))]
  end.

(** The process state after such a round. *)
Definition idle_round {P : Platform} (os : wait_os) (pid : Z) (i : nat)
    (st : proc) : proc :=
  snd (sys (Usleep 10000) (usleep_r os i)
        (snd (sys (Waitpid pid true) (poll_r os i) st))).

(** Number of polls a bounded wait of [timeout_ms] makes before giving up:
    the least [n] with [10 * n >= timeout_ms]. *)
Definition polls_before_timeout (timeout_ms : Z) : nat :=
  Z.to_nat ((timeout_ms + 9) / 10).

(** The child-side steps whose failure makes the child call [_exit(127)]. *)
Definition fatal_failure (os : spawn_os) : Prop :=
  ret (setsid_r os) < 0 \/ ret (open_r os) < 0 \/
  ret (dup2_r os STDIN_FILENO) < 0 \/ ret (dup2_r os STDOUT_FILENO) < 0 \/
  ret (dup2_r os STDERR_FILENO) < 0 \/ execve_fails os <> None.

(** The two steps the specification documents as best effort: the forced
    controlling-terminal [ioctl] and [chdir]. *)
Definition best_effort (c : call) : bool :=
  match c with
  | IoctlSCTTY _ _ 1 => true
  | Chdir _ => true
  | _ => false
  end.

(** "The forced controlling-terminal fallback and the working-directory
    change are the only child-side steps whose failure is non-fatal": in the
    child ([fork] returned 0), every call of the run that failed while the
    child did not exit with 127 is one of these two. *)
Definition only_best_effort_steps_nonfatal {P : Platform}
    (os : spawn_os) (a : spawn_args) (st : proc) : Prop :=
  ret (fork_r os) = 0 ->
  forall e,
    In e (log (snd (pty_spawn os a st))) -> ~ In e (log st) ->
    ev_ret e < 0 ->
    fst (pty_spawn os a st) <> Exited 127 ->
    best_effort (ev_call e) = true.

(** The [sigaction] calls of the loop of lines 96-99 over [sigs], oldest
    first. *)
Definition reset_calls {P : Platform} (os : spawn_os) (sigs : list Z)
  : list event :=
  map (fun sig => Ev (Sigaction sig SIG_DFL) (ret (sigaction_r os sig)))
      (filter (fun sig => negb ((sig =? SIGKILL) || (sig =? SIGSTOP))) sigs).

(** The process state after the calls [evs] (oldest first), as far as the
    calls determine it. *)
Definition replay (evs : list event) (st : proc) : proc :=
  fold_left (fun st e => kernel_effect (ev_call e) (ev_ret e) st) evs st.

(** Signal [sig] is not blocked and has a handler installed: if it arrives
    now, the handler runs. *)
Definition handler_would_run (sig : Z) (st : proc) : bool :=
  negb (existsb (Z.eqb sig) (sigmask st)) &&
  match handlers st sig with
  | Handler _ => true
  | _ => false
  end.

Definition is_sigmask (c : call) : bool :=
  match c with
  | Sigmask _ => true
  | _ => false
  end.

(** A computation that leaves the signal mask, the output cells and the
    environment alone and issues no [pthread_sigmask]. *)
Definition quiet {A} (m : M A) : Prop :=
  forall st, exists issued,
    log (snd (m st)) = issued ++ log st /\
    (forall set x, ~ In (Ev (Sigmask set) x) issued) /\
    sigmask (snd (m st)) = sigmask st /\
    mem (snd (m st)) = mem st /\
    environ (snd (m st)) = environ st.

(** ** Concrete runs on Linux, used to exercise the theorems *)

Module Scenario.

Definition EACCES : Z := 13.
Definition EINTR : Z := 4.
Definition SIGINT : Z := 2.

(** A process with descriptors 0-2 open, no signal blocked and a handler
    installed for SIGINT. *)
Definition st0 : proc :=
  {| errno := 0;
     sigmask := [];
     handlers := fun s => if s =? SIGINT then Handler 7%nat else SIG_DFL;
     fds := [0; 1; 2];
     environ := ["TERM=xterm"%string];
     mem := [];
     log := [] |}.

(** [pty_open]: the master is descriptor 5, [unlockpt] fails with EACCES
    and the clean-up [close] is interrupted. *)
Definition unlock_fails : open_os :=
  {| openpt_r := ok 5;
     grantpt_r := ok 0;
     unlockpt_r := fails EACCES;
     ptsname_r := ok 1;
     ptsname_str := "/dev/pts/4"%string;
     cleanup_close_r := fails EINTR;
     winsz_r := ok 0 |}.

(** [pty_open]: every step succeeds. *)
Definition open_ok : open_os :=
  {| openpt_r := ok 5;
     grantpt_r := ok 0;
     unlockpt_r := ok 0;
     ptsname_r := ok 1;
     ptsname_str := "/dev/pts/4"%string;
     cleanup_close_r := ok 0;
     winsz_r := ok 0 |}.

(** [pty_wait]: the child is still running at every poll. *)
Definition child_keeps_running : wait_os :=
  {| wait_r := ok 77;
     wait_status := 0;
     poll_r := fun _ => ok 0;
     poll_status := fun _ => 0;
     usleep_r := fun _ => ok 0 |}.

(** [pty_wait]: the child (pid 77) has already exited with code 3; every
    [waitpid] reports it. *)
Definition child_exited_3 : wait_os :=
  {| wait_r := ok 77;
     wait_status := 768;
     poll_r := fun _ => ok 77;
     poll_status := fun _ => 768;
     usleep_r := fun _ => ok 0 |}.

(** [pty_wait]: the child (pid 77) is found killed by signal 9 at the
    third poll. *)
Definition child_killed_at_third_poll : wait_os :=
  {| wait_r := ok 77;
     wait_status := 9;
     poll_r := fun i => if (i <? 2)%nat then ok 0 else ok 77;
     poll_status := fun _ => 9;
     usleep_r := fun _ => ok 0 |}.

(** [pty_spawn]: a shell on /dev/pts/4, no environment given, no directory
    change requested. *)
Definition sh_request : spawn_args :=
  {| path := Some "/bin/sh"%string;
     argv := Some ["sh"%string];
     envp := None;
     slave_name := Some "/dev/pts/4"%string;
     working_dir := None;
     out_pid := Some 0%nat |}.

(** The same request with a null executable path. *)
Definition no_path_request : spawn_args :=
  {| path := None;
     argv := Some ["sh"%string];
     envp := None;
     slave_name := Some "/dev/pts/4"%string;
     working_dir := None;
     out_pid := Some 0%nat |}.

(** [pty_spawn], seen from the child ([fork] returns 0): the slave opens as
    descriptor 3 and every call succeeds. *)
Definition in_child : spawn_os :=
  {| block_clobber := None;
     fork_r := ok 0;
     restore_fail_clobber := None;
     restore_child_clobber := None;
     sigaction_r := fun _ => ok 0;
     setsid_r := ok 0;
     open_r := ok 3;
     sctty_r := ok 0;
     sctty_force_r := ok 0;
     dup2_r := fun newfd => ok newfd;
     close_r := ok 0;
     chdir_r := ok 0;
     execve_fails := None;
     restore_parent_clobber := None |}.

(** The same, but [close(slave_fd)] is interrupted. *)
Definition in_child_close_fails : spawn_os :=
  {| block_clobber := None;
     fork_r := ok 0;
     restore_fail_clobber := None;
     restore_child_clobber := None;
     sigaction_r := fun _ => ok 0;
     setsid_r := ok 0;
     open_r := ok 3;
     sctty_r := ok 0;
     sctty_force_r := ok 0;
     dup2_r := fun newfd => ok newfd;
     close_r := fails EINTR;
     chdir_r := ok 0;
     execve_fails := None;
     restore_parent_clobber := None |}.

(** [pty_spawn]: [fork] fails with EAGAIN and the mask restore that follows
    leaves another value in [errno]. *)
Definition EAGAIN : Z := 11.

Definition fork_fails : spawn_os :=
  {| block_clobber := None;
     fork_r := fails EAGAIN;
     restore_fail_clobber := Some EINTR;
     restore_child_clobber := None;
     sigaction_r := fun _ => ok 0;
     setsid_r := ok 0;
     open_r := ok 3;
     sctty_r := ok 0;
     sctty_force_r := ok 0;
     dup2_r := fun newfd => ok newfd;
     close_r := ok 0;
     chdir_r := ok 0;
     execve_fails := None;
     restore_parent_clobber := None |}.

(** [pty_spawn], seen from the child: the slave cannot be opened. *)
Definition in_child_open_fails : spawn_os :=
  {| block_clobber := None;
     fork_r := ok 0;
     restore_fail_clobber := None;
     restore_child_clobber := None;
     sigaction_r := fun _ => ok 0;
     setsid_r := ok 0;
     open_r := fails EACCES;
     sctty_r := ok 0;
     sctty_force_r := ok 0;
     dup2_r := fun newfd => ok newfd;
     close_r := ok 0;
     chdir_r := ok 0;
     execve_fails := None;
     restore_parent_clobber := None |}.

End Scenario.

(** ** Vocabulary of the further properties *)

(** Every call the computation issues is one that [allowed] accepts. *)
Definition issues_only {A} (allowed : call -> bool) (m : M A) : Prop :=
  forall st, exists issued,
    log (snd (m st)) = issued ++ log st /\
    Forall (fun e => allowed (ev_call e) = true) issued.

(** The computation leaves the component [f] of the process state alone. *)
Definition preserves {A X} (f : proc -> X) (m : M A) : Prop :=
  forall st, f (snd (m st)) = f st.

Definition is_sigaction (c : call) : bool :=
  match c with
  | Sigaction _ _ => true
  | _ => false
  end.

(** Calls that change the descriptor table. *)
Definition touches_fds (c : call) : bool :=
  match c with
  | Open _ | PosixOpenpt | Dup2 _ _ | Close _ => true
  | _ => false
  end.

(** What [child_setup] may issue: no signal or process management, and
    [close] on nothing but the slave descriptor [slave_fd], which must be
    above the standard descriptors. *)
Definition setup_call (slave_fd : Z) (c : call) : bool :=
  match c with
  | Sigmask _ | Fork | Sigaction _ _ | Waitpid _ _ | Usleep _ => false
  | PosixOpenpt | Grantpt _ | Unlockpt _ | Ptsname _ | IoctlSWINSZ _ _ => false
  | Close fd => (fd =? slave_fd) && (fd >? 2)
  | Dup2 oldfd newfd => (oldfd =? slave_fd) && (0 <=? newfd) && (newfd <=? 2)
  | _ => true
  end.

(** What a bounded wait on [pid] may issue: non-blocking polls of [pid] and
    sleeps of 10000 microseconds. *)
Definition poll_call (pid : Z) (c : call) : bool :=
  match c with
  | Waitpid p nohang => (p =? pid) && nohang
  | Usleep usec => usec =? 10000
  | _ => false
  end.


(** The test of lines 96-97: [sig] is visited by the loop and is neither
    SIGKILL nor SIGSTOP. *)
Definition reset_attempted {P : Platform} (sig : Z) : bool :=
  (1 <=? sig) && (sig <? NSIG) && negb ((sig =? SIGKILL) || (sig =? SIGSTOP)).

(** The controlling-terminal calls of lines 116-122 on descriptor [fd],
    oldest first. *)
Definition tty_calls {P : Platform} (os : spawn_os) (fd : Z) : list event :=
  match TIOCSCTTY with
  | Some request =>
      Ev (IoctlSCTTY fd request 0) (ret (sctty_r os)) ::
      (if ret (sctty_r os) <? 0
       then [Ev (IoctlSCTTY fd request 1) (ret (sctty_force_r os))]
       else [])
  | None => []
  end.

(** The calls of a child from [setsid] up to, but not including, [execve],
    when none of them fails fatally, oldest first. *)
Definition calls_before_exec {P : Platform} (os : spawn_os)
    (slave_name : string) (working_dir : option string) : list event :=
  let slave_fd := ret (open_r os) in
  [Ev Setsid (ret (setsid_r os)); Ev (Open slave_name) slave_fd] ++
  tty_calls os slave_fd ++
  [Ev (Dup2 slave_fd 0) (ret (dup2_r os 0));
   Ev (Dup2 slave_fd 1) (ret (dup2_r os 1));
   Ev (Dup2 slave_fd 2) (ret (dup2_r os 2))] ++
  (if slave_fd >? 2 then [Ev (Close slave_fd) (ret (close_r os))] else []) ++
  match working_dir with
  | Some (String c d) => [Ev (Chdir (String c d)) (ret (chdir_r os))]
  | _ => []
  end.

(** The call is one of those whose failure ends the child. *)
Definition fatal_call (c : call) : bool :=
  match c with
  | Setsid | Open _ | Dup2 _ _ | Execve _ _ _ => true
  | _ => false
  end.

(** ** Further concrete runs on Linux *)

Module Sample.

(** The request of [Scenario.sh_request] with a null [out_pid]. *)
Definition no_out_pid_request : spawn_args :=
  {| path := Some "/bin/sh"%string;
     argv := Some ["sh"%string];
     envp := None;
     slave_name := Some "/dev/pts/4"%string;
     working_dir := None;
     out_pid := None |}.

(** A process like [Scenario.st0] that also holds a PTY master as
    descriptor 5. *)
Definition st_with_master : proc :=
  {| errno := 0;
     sigmask := [];
     handlers := fun s => if s =? Scenario.SIGINT then Handler 7%nat else SIG_DFL;
     fds := [0; 1; 2; 5];
     environ := ["TERM=xterm"%string];
     mem := [];
     log := [] |}.

(** [pty_spawn], seen from the parent: [fork] returns the pid 4242. *)
Definition in_parent : spawn_os :=
  {| block_clobber := None;
     fork_r := ok 4242;
     restore_fail_clobber := None;
     restore_child_clobber := None;
     sigaction_r := fun _ => ok 0;
     setsid_r := ok 0;
     open_r := ok 3;
     sctty_r := ok 0;
     sctty_force_r := ok 0;
     dup2_r := fun newfd => ok newfd;
     close_r := ok 0;
     chdir_r := ok 0;
     execve_fails := None;
     restore_parent_clobber := None |}.

End Sample.

(** * Properties *)

(** ** The Linux macros satisfy the POSIX reading *)

Lemma linux_wtermsig_range (s : Z) : 0 <= Linux.wtermsig s <= 127.
Proof.
  unfold Linux.wtermsig.
  replace (Z.land s 127) with (s mod 128)
    by (symmetry; apply (Z.land_ones s 7); lia).
  pose proof (Z.mod_pos_bound s 128 eq_refl). lia.
Qed.

Lemma linux_wexitstatus_range (s : Z) : 0 <= Linux.wexitstatus s <= 255.
Proof.
  unfold Linux.wexitstatus. rewrite Z.shiftr_land.
  replace (Z.land (Z.shiftr s 8) (Z.shiftr 65280 8)) with (Z.shiftr s 8 mod 256)
    by (symmetry; apply (Z.land_ones (Z.shiftr s 8) 8); lia).
  pose proof (Z.mod_pos_bound (Z.shiftr s 8) 256 eq_refl). lia.
Qed.

Lemma linux_wifexited_not_signaled (s : Z) :
  Linux.wifexited s = true -> Linux.wifsignaled s = false.
Proof.
  unfold Linux.wifexited, Linux.wifsignaled, Linux.wtermsig. intros H.
  apply Z.eqb_eq in H. rewrite H. reflexivity.
Qed.

Lemma linux_posix_wait_macros : PosixWaitMacros Linux.platform.
Proof.
  constructor.
  - exact linux_wexitstatus_range.
  - exact linux_wtermsig_range.
  - exact linux_wifexited_not_signaled.
Qed.

(** ** Argument checks *)

Section ArgumentChecks.
Context {P : Platform}.

Lemma pty_spawn_null (os : spawn_os) (a : spawn_args) (st : proc) :
  path a = None \/ argv a = None \/ slave_name a = None \/ out_pid a = None ->
  pty_spawn os a st = (Returned (-1), with_errno EINVAL st).
Proof.
  unfold pty_spawn. intros H.
  destruct (path a), (argv a), (slave_name a), (out_pid a); try reflexivity.
  destruct H as [H | [H | [H | H]]]; discriminate.
Qed.

Lemma pty_open_invalid (os : open_os) (out_master_fd out_slave_name : option loc)
    (slave_name_len width height : Z) (st : proc) :
  out_master_fd = None \/ out_slave_name = None \/ slave_name_len < 256 ->
  pty_open os out_master_fd out_slave_name slave_name_len width height st
  = (Returned (-1), with_errno EINVAL st).
Proof.
  unfold pty_open. intros H.
  destruct out_master_fd, out_slave_name; try reflexivity.
  destruct (Z.ltb_spec slave_name_len 256); try reflexivity.
  destruct H as [H | [H | H]]; try discriminate. lia.
Qed.

(** C7. Both argument checks come before the first system call.  When
    [pty_spawn] is given a null path, argument vector or slave name, and
    when [pty_open] is given a buffer length below 256, the function returns
    -1 with [errno] set to EINVAL, has issued no call (so no descriptor was
    opened) and has changed nothing else in the process state. *)
Theorem invalid_argument_before_any_os_call
    (sos : spawn_os) (a : spawn_args) (oos : open_os)
    (out_master_fd out_slave_name : option loc)
    (slave_name_len width height : Z) (st : proc) :
  (path a = None \/ argv a = None \/ slave_name a = None ->
   fst (pty_spawn sos a st) = Returned (-1) /\
   only_einval_set st (snd (pty_spawn sos a st))) /\
  (slave_name_len < 256 ->
   fst (pty_open oos out_master_fd out_slave_name slave_name_len width height st)
   = Returned (-1) /\
   only_einval_set st
     (snd (pty_open oos out_master_fd out_slave_name slave_name_len
             width height st))).
Proof.
  split.
  - intros H. rewrite pty_spawn_null by tauto. repeat split.
  - intros H. rewrite pty_open_invalid by tauto. repeat split.
Qed.

End ArgumentChecks.

Lemma invalid_argument_before_any_os_call_witness :
  (fst (pty_spawn (P := Linux.platform) Scenario.in_child
          Scenario.no_path_request Scenario.st0) = Returned (-1) /\
   only_einval_set (P := Linux.platform) Scenario.st0
     (snd (pty_spawn (P := Linux.platform) Scenario.in_child
             Scenario.no_path_request Scenario.st0))) /\
  (fst (pty_open (P := Linux.platform) Scenario.open_ok (Some 0%nat)
          (Some 1%nat) 255 80 24 Scenario.st0) = Returned (-1) /\
   only_einval_set (P := Linux.platform) Scenario.st0
     (snd (pty_open (P := Linux.platform) Scenario.open_ok (Some 0%nat)
             (Some 1%nat) 255 80 24 Scenario.st0))).
Proof.
  destruct (invalid_argument_before_any_os_call (P := Linux.platform)
              Scenario.in_child Scenario.no_path_request Scenario.open_ok
              (Some 0%nat) (Some 1%nat) 255 80 24 Scenario.st0)
    as (Hspawn & Hopen).
  split.
  - apply Hspawn. left. reflexivity.
  - apply Hopen. lia.
Defined.

(** ** Reasoning about runs *)

Lemma issued_nil (l : list event) : l = [] ++ l.
Proof. reflexivity. Qed.

Lemma issued_cons (e : event) (l' pre l : list event) :
  l' = pre ++ l -> e :: l' = (e :: pre) ++ l.
Proof. intros ->. reflexivity. Qed.

(** Solve [e1 :: ... :: en :: l = ?issued ++ l]. *)
Ltac find_issued := repeat (apply issued_cons); apply issued_nil.

(** Unfold the monad and the straight-line functions. *)
Ltac run :=
  cbv [pty_open pty_resize close_keeping_errno pty_wait report_status
       bind sys mret _exit store set_errno get_errno get_environ kernel_effect];
  cbn.

(** Case analysis on the next test of the code. *)
Ltac split_if :=
  match goal with
  | |- context [if ?a <? ?b then _ else _] => destruct (Z.ltb_spec a b)
  | |- context [if ?a <=? ?b then _ else _] => destruct (Z.leb_spec a b)
  | |- context [if ?a =? ?b then _ else _] => destruct (Z.eqb_spec a b)
  | |- context [?a >? ?b] => rewrite (Z.gtb_ltb a b)
  | |- context [(?a <? ?b) && _] => destruct (Z.ltb_spec a b)
  end.

Ltac crunch := run; repeat (split_if; try lia; run).

(** ** pty_open and pty_resize *)

Section OpenProps.
Context {P : Platform}.

Lemma pty_open_success (os : open_os) (m s : loc) (len w h : Z) (st : proc) :
  256 <= len -> 0 <= ret (openpt_r os) -> 0 <= ret (grantpt_r os) ->
  0 <= ret (unlockpt_r os) -> ret (ptsname_r os) <> 0 ->
  let r := pty_open os (Some m) (Some s) len w h st in
  fst r = Returned 0 /\
  log (snd r) =
    (if (w >? 0) && (h >? 0)
     then [Ev (IoctlSWINSZ (ret (openpt_r os)) (make_winsize w h)) (ret (winsz_r os))]
     else []) ++
    [Ev (Ptsname (ret (openpt_r os))) (ret (ptsname_r os));
     Ev (Unlockpt (ret (openpt_r os))) (ret (unlockpt_r os));
     Ev (Grantpt (ret (openpt_r os))) (ret (grantpt_r os));
     Ev PosixOpenpt (ret (openpt_r os))] ++ log st /\
  mem (snd r) =
    [(m, CInt (ret (openpt_r os))); (s, CStr (copy_name (ptsname_str os) len))]
    ++ mem st.
Proof.
  intros Hlen Ho Hg Hu Hp r. subst r. crunch; repeat split.
Qed.

Lemma pty_open_returns_0 (os : open_os) (om osn : option loc) (len w h : Z)
    (st : proc) :
  fst (pty_open os om osn len w h st) = Returned 0 ->
  (exists m s, om = Some m /\ osn = Some s) /\ 256 <= len /\
  0 <= ret (openpt_r os) /\ 0 <= ret (grantpt_r os) /\
  0 <= ret (unlockpt_r os) /\ ret (ptsname_r os) <> 0.
Proof.
  destruct om as [m|], osn as [s|]; try (run; discriminate).
  crunch; intros Hret; try discriminate;
    (split; [exists m, s; split; reflexivity | repeat split; lia]).
Qed.

(** What a run of [pty_open] adds to the log, and the window sizes in it. *)
Lemma pty_open_issued (os : open_os) (om osn : option loc) (len w h : Z)
    (st : proc) :
  exists issued,
    log (snd (pty_open os om osn len w h st)) = issued ++ log st /\
    (geometry_pushed issued ->
     fst (pty_open os om osn len w h st) = Returned 0 /\ 0 < w /\ 0 < h) /\
    (forall fd ws r, In (Ev (IoctlSWINSZ fd ws) r) issued ->
     fd = ret (openpt_r os) /\ ws = make_winsize w h).
Proof.
  destruct om as [m|], osn as [s|];
    try (exists []; run; split; [reflexivity |];
         split; [intros (? & ? & ? & []) | intros ? ? ? []]).
  crunch; (eexists; split; [find_issued |]);
    (split; [intros (fd & ws & r & Hin) | intros fd ws r Hin]);
    cbn in Hin; intuition (try discriminate; try lia; congruence).
Qed.

(** C5. A run of [pty_open] that opened the master (descriptor
    [ret (openpt_r os)]) and then saw [grantpt], [unlockpt] or [ptsname] fail
    returns -1, its last call is [close] on the master, which is no longer in
    the descriptor table, [errno] holds the code left by the failed step
    whatever the clean-up [close] wrote there, and neither output cell (master
    descriptor, slave name) has been written. *)
Theorem pty_open_failure_closes_master
    (os : open_os) (m s : loc) (len w h : Z) (st : proc) :
  256 <= len -> 0 <= ret (openpt_r os) ->
  ret (grantpt_r os) < 0 \/ ret (unlockpt_r os) < 0 \/ ret (ptsname_r os) = 0 ->
  let r := pty_open os (Some m) (Some s) len w h st in
  fst r = Returned (-1) /\
  hd_error (log (snd r)) =
    Some (Ev (Close (ret (openpt_r os))) (ret (cleanup_close_r os))) /\
  ~ In (ret (openpt_r os)) (fds (snd r)) /\
  (forall e, sets_errno (failed_step os) = Some e -> errno (snd r) = e) /\
  mem (snd r) = mem st.
Proof.
  intros Hlen Ho Hfail r. subst r. unfold failed_step.
  crunch; repeat split;
    match goal with
    | |- ~ In _ _ => destruct Z.eq_dec; [apply remove_In | congruence]
    | |- forall _, _ =>
        let e := fresh "e" in let He := fresh "He" in
        intros e He; unfold errno_after; rewrite He; reflexivity
    end.
Qed.

(** C8. On a run of [pty_open] that returns 0, a window size is pushed
    exactly when [width > 0] and [height > 0]; it is then the last call
    before the return and goes to the master.  Whether the call returns 0
    depends neither on the geometry nor on what the [ioctl] answers. *)
Theorem initial_geometry_pushed_iff_positive
    (os : open_os) (om osn : option loc) (len w h : Z) (st : proc) :
  fst (pty_open os om osn len w h st) = Returned 0 ->
  (exists issued,
     log (snd (pty_open os om osn len w h st)) = issued ++ log st /\
     (geometry_pushed issued <-> 0 < w /\ 0 < h) /\
     (0 < w /\ 0 < h ->
      hd_error issued =
        Some (Ev (IoctlSWINSZ (ret (openpt_r os)) (make_winsize w h))
                 (ret (winsz_r os))))) /\
  (forall w' h' r',
     fst (pty_open (with_winsz_r r' os) om osn len w' h' st) = Returned 0).
Proof.
  intros Hret.
  destruct (pty_open_returns_0 _ _ _ _ _ _ _ Hret)
    as ((m & s & -> & ->) & Hlen & Ho & Hg & Hu & Hp).
  split.
  - destruct (pty_open_success os m s len w h st Hlen Ho Hg Hu Hp)
      as (_ & Hlog & _).
    eexists. split; [rewrite Hlog; rewrite app_assoc; reflexivity |].
    rewrite !Z.gtb_ltb.
    destruct (Z.ltb_spec 0 w), (Z.ltb_spec 0 h); cbn;
      (split; [split |]);
      try (intros (fd & ws & r & Hin); cbn in Hin;
           intuition (try discriminate; lia));
      try (intros; lia); try reflexivity.
    intros _. exists (ret (openpt_r os)), (make_winsize w h), (ret (winsz_r os)).
    left. reflexivity.
  - intros w' h' r'.
    apply (pty_open_success (with_winsz_r r' os) m s len w' h' st); assumption.
Qed.

(** C10. The window size [pty_resize] hands to the kernel, and the one
    [pty_open] pushes, has the row count [height mod 2^16], the column count
    [width mod 2^16] and both pixel fields 0, for all [width] and [height]. *)
Theorem window_size_fields_are_16_bit
    (r : response) (master_fd : Z) (os : open_os) (om osn : option loc)
    (len w h : Z) (st : proc) :
  let ws := mkWinsize (h mod 2 ^ 16) (w mod 2 ^ 16) 0 0 in
  pty_resize r master_fd w h st
  = (Returned (ret r),
     snd (sys (IoctlSWINSZ master_fd ws) r st)) /\
  log (snd (pty_resize r master_fd w h st))
  = Ev (IoctlSWINSZ master_fd ws) (ret r) :: log st /\
  exists issued,
    log (snd (pty_open os om osn len w h st)) = issued ++ log st /\
    (fst (pty_open os om osn len w h st) = Returned 0 -> 0 < w -> 0 < h ->
     In (Ev (IoctlSWINSZ (ret (openpt_r os)) ws) (ret (winsz_r os))) issued) /\
    (forall fd ws' r', In (Ev (IoctlSWINSZ fd ws') r') issued -> ws' = ws).
Proof.
  intros ws. split; [reflexivity | split; [reflexivity |]].
  destruct (pty_open_issued os om osn len w h st) as (issued & Hlog & _ & Hws).
  exists issued. split; [exact Hlog | split].
  - intros Hret Hw Hh.
    destruct (pty_open_returns_0 _ _ _ _ _ _ _ Hret)
      as ((m & s & -> & ->) & Hlen & Ho & Hg & Hu & Hp).
    destruct (pty_open_success os m s len w h st Hlen Ho Hg Hu Hp)
      as (_ & Hlog' & _).
    rewrite Hlog' in Hlog. rewrite app_assoc in Hlog.
    apply app_inv_tail in Hlog. subst issued.
    rewrite !Z.gtb_ltb.
    destruct (Z.ltb_spec 0 w), (Z.ltb_spec 0 h); try lia.
    left. reflexivity.
  - intros fd ws' r' Hin. apply (Hws fd ws' r' Hin).
Qed.

End OpenProps.

Lemma pty_open_failure_closes_master_witness :
  let r := pty_open (P := Linux.platform) Scenario.unlock_fails
             (Some 0%nat) (Some 1%nat) 256 80 24 Scenario.st0 in
  fst r = Returned (-1) /\
  hd_error (log (snd r)) = Some (Ev (Close 5) (-1)) /\
  ~ In 5 (fds (snd r)) /\
  errno (snd r) = Scenario.EACCES /\
  mem (snd r) = [].
Proof.
  assert (Hlen : 256 <= 256) by lia.
  assert (Ho : 0 <= ret (openpt_r Scenario.unlock_fails)) by (simpl; lia).
  assert (Hfail : ret (grantpt_r Scenario.unlock_fails) < 0 \/
                  ret (unlockpt_r Scenario.unlock_fails) < 0 \/
                  ret (ptsname_r Scenario.unlock_fails) = 0)
    by (right; left; simpl; lia).
  destruct (pty_open_failure_closes_master (P := Linux.platform)
              Scenario.unlock_fails 0%nat 1%nat 256 80 24 Scenario.st0
              Hlen Ho Hfail)
    as (Hret & Hlast & Hclosed & Herrno & Hmem).
  intros r.
  split; [exact Hret |]. split; [exact Hlast |]. split; [exact Hclosed |].
  split; [apply Herrno; reflexivity | exact Hmem].
Defined.

Lemma initial_geometry_pushed_iff_positive_witness :
  exists issued,
    log (snd (pty_open (P := Linux.platform) Scenario.open_ok
                (Some 0%nat) (Some 1%nat) 256 0 24 Scenario.st0))
    = issued ++ [] /\
    ~ geometry_pushed issued.
Proof.
  destruct (initial_geometry_pushed_iff_positive (P := Linux.platform)
              Scenario.open_ok (Some 0%nat) (Some 1%nat) 256 0 24 Scenario.st0)
    as ((issued & Hlog & Hiff & _) & _); [reflexivity |].
  exists issued. split; [exact Hlog |].
  intros Hpush. apply Hiff in Hpush. lia.
Defined.

Lemma window_size_fields_are_16_bit_witness :
  exists issued,
    log (snd (pty_open (P := Linux.platform) Scenario.open_ok
                (Some 0%nat) (Some 1%nat) 256 65536 24 Scenario.st0))
    = issued ++ [] /\
    In (Ev (IoctlSWINSZ 5 (mkWinsize 24 0 0 0)) 0) issued.
Proof.
  destruct (window_size_fields_are_16_bit (P := Linux.platform) (ok 0) 5
              Scenario.open_ok (Some 0%nat) (Some 1%nat) 256 65536 24
              Scenario.st0)
    as (_ & _ & issued & Hlog & Hpush & _).
  exists issued. split; [exact Hlog |].
  apply Hpush; [reflexivity | lia | lia].
Defined.

(** ** pty_wait *)

Lemma wrap_int_id (z : Z) : INT_MIN <= z <= INT_MAX -> wrap_int z = z.
Proof.
  unfold wrap_int, INT_MIN, INT_MAX. intros H.
  rewrite Z.mod_small; lia.
Qed.

Section WaitProps.
Context {P : Platform}.
Variable os : wait_os.
Variables pid timeout_ms : Z.
Variable out_status : option loc.

Lemma poll_loop_round (fuel i : nat) (elapsed : Z) (st : proc) :
  elapsed < timeout_ms -> ret (poll_r os i) = 0 ->
  poll_loop os pid timeout_ms out_status (S fuel) i elapsed st
  = poll_loop os pid timeout_ms out_status fuel (S i) (wrap_int (elapsed + 10))
      (idle_round os pid i st).
Proof.
  intros Hlt Hidle. cbn [poll_loop].
  destruct (Z.ltb_spec elapsed timeout_ms); [| lia].
  unfold idle_round, bind, sys. cbn [fst snd ret]. rewrite Hidle. reflexivity.
Qed.

(** [k] rounds that find the child running, while the counter does not
    overflow. *)
Lemma poll_loop_idle (k : nat) :
  forall (fuel i : nat) (elapsed : Z) (st : proc),
    (forall j, (j < k)%nat -> ret (poll_r os (i + j)) = 0) ->
    (forall j, (j < k)%nat -> elapsed + 10 * Z.of_nat j < timeout_ms) ->
    INT_MIN <= elapsed ->
    elapsed + 10 * Z.of_nat k <= INT_MAX ->
    exists st',
      poll_loop os pid timeout_ms out_status (k + fuel) i elapsed st
      = poll_loop os pid timeout_ms out_status fuel (i + k)
          (elapsed + 10 * Z.of_nat k) st' /\
      mem st' = mem st /\
      log st' = idle_rounds os pid i k ++ log st.
Proof.
  induction k as [| k IH]; intros fuel i elapsed st Hidle Hlt Hlo Hhi.
  - exists st. rewrite Nat.add_0_r, Z.add_0_r. repeat split.
  - cbn [Nat.add]. rewrite poll_loop_round.
    + rewrite wrap_int_id by lia.
      destruct (IH fuel (S i) (elapsed + 10) (idle_round os pid i st))
        as (st' & Hrun & Hmem & Hlog).
      * intros j Hj. replace (S i + j)%nat with (i + S j)%nat by lia.
        apply Hidle. lia.
      * intros j Hj. specialize (Hlt (S j)). lia.
      * lia.
      * lia.
      * exists st'. split; [| split].
        -- rewrite Hrun. f_equal; lia.
        -- rewrite Hmem. reflexivity.
        -- rewrite Hlog. cbn [idle_rounds]. rewrite <- app_assoc. reflexivity.
    + specialize (Hlt 0%nat). lia.
    + specialize (Hidle 0%nat). rewrite Nat.add_0_r in Hidle. apply Hidle. lia.
Qed.

(** The run of a bounded wait up to its [k]-th poll, when the earlier polls
    found the child running. *)
Lemma pty_wait_reaches_poll (k fuel : nat) (st : proc) :
  0 <= timeout_ms <= INT_MAX ->
  10 * Z.of_nat k < timeout_ms ->
  idle_before os k ->
  exists st',
    pty_wait os (k + fuel) pid timeout_ms out_status st
    = poll_loop os pid timeout_ms out_status fuel k (10 * Z.of_nat k) st' /\
    mem st' = mem st /\
    log st' = idle_rounds os pid 0 k ++ log st.
Proof.
  intros Hrange Hk Hidle. unfold pty_wait.
  destruct (Z.ltb_spec timeout_ms 0); [lia |].
  destruct (poll_loop_idle k fuel 0%nat 0 st) as (st' & Hrun & Hmem & Hlog).
  - intros j Hj. apply Hidle. exact Hj.
  - intros j Hj. lia.
  - unfold INT_MIN. lia.
  - lia.
  - exists st'. rewrite Hrun. repeat split; assumption.
Qed.

(** The [k]-th poll decides a bounded wait when it does not answer 0. *)
Lemma pty_wait_decided_at (k fuel : nat) (st : proc) :
  0 <= timeout_ms <= INT_MAX ->
  10 * Z.of_nat k < timeout_ms ->
  (k < fuel)%nat ->
  idle_before os k ->
  ret (poll_r os k) <> 0 ->
  exists st',
    pty_wait os fuel pid timeout_ms out_status st
    = (Returned (if ret (poll_r os k) <? 0 then -1 else 0), st') /\
    mem st' =
      match out_status with
      | Some p =>
          if ret (poll_r os k) <? 0 then mem st
          else (p, CInt (exit_status (poll_status os k))) :: mem st
      | None => mem st
      end /\
    log st' =
      Ev (Waitpid pid true) (ret (poll_r os k)) :: idle_rounds os pid 0 k ++ log st.
Proof.
  intros Hrange Hk Hfuel Hidle Hret.
  replace fuel with (k + S (fuel - k - 1))%nat by lia.
  destruct (pty_wait_reaches_poll k (S (fuel - k - 1)) st Hrange Hk Hidle)
    as (st1 & Hrun & Hmem & Hlog).
  rewrite Hrun. cbn [poll_loop].
  destruct (Z.ltb_spec (10 * Z.of_nat k) timeout_ms); [| lia].
  unfold bind, sys, report_status, store, mret. cbn [fst snd ret].
  destruct (Z.ltb_spec (ret (poll_r os k)) 0).
  - eexists. split; [reflexivity |]. cbn. rewrite Hmem, Hlog.
    destruct out_status; split; reflexivity.
  - rewrite Z.gtb_ltb. destruct (Z.ltb_spec 0 (ret (poll_r os k))); [| lia].
    destruct out_status; (eexists; split; [reflexivity |]);
      cbn; rewrite Hmem, Hlog; split; reflexivity.
Qed.

(** A bounded wait whose polls all find the child running gives up after
    [polls_before_timeout timeout_ms] polls, provided the counter (which
    ends at ten times that number) does not overflow. *)
Lemma pty_wait_gives_up (fuel : nat) (st : proc) :
  0 <= timeout_ms ->
  10 * Z.of_nat (polls_before_timeout timeout_ms) <= INT_MAX ->
  (polls_before_timeout timeout_ms <= fuel)%nat ->
  idle_before os (polls_before_timeout timeout_ms) ->
  exists st',
    pty_wait os fuel pid timeout_ms out_status st = (Returned 1, st') /\
    mem st' = mem st /\
    log st' = idle_rounds os pid 0 (polls_before_timeout timeout_ms) ++ log st.
Proof.
  intros Hpos Hmax Hfuel Hidle. unfold pty_wait.
  destruct (Z.ltb_spec timeout_ms 0); [lia |].
  set (n := polls_before_timeout timeout_ms) in *.
  assert (Hn : Z.of_nat n = (timeout_ms + 9) / 10).
  { unfold n, polls_before_timeout. rewrite Z2Nat.id; [reflexivity |].
    apply Z.div_pos; lia. }
  assert (Hdiv : 10 * ((timeout_ms + 9) / 10) <= timeout_ms + 9
                 < 10 * ((timeout_ms + 9) / 10) + 10).
  { pose proof (Z.mul_div_le (timeout_ms + 9) 10 eq_refl).
    pose proof (Z.mul_succ_div_gt (timeout_ms + 9) 10 eq_refl). lia. }
  replace fuel with (n + (fuel - n))%nat by lia.
  destruct (poll_loop_idle n (fuel - n) 0%nat 0 st) as (st' & Hrun & Hmem & Hlog).
  - intros j Hj. apply Hidle. exact Hj.
  - intros j Hj. lia.
  - unfold INT_MIN. lia.
  - lia.
  - exists st'. rewrite Hrun. split; [| split; assumption].
    destruct (fuel - n)%nat; cbn [poll_loop];
      (destruct (Z.ltb_spec (0 + 10 * Z.of_nat n) timeout_ms); [lia | reflexivity]).
Qed.

End WaitProps.

Section WaitTheorems.
Context {P : Platform}.
Variable os : wait_os.
Variable pid : Z.

(** When the counter cannot overflow ([timeout_ms <= 2147483640]), a
    bounded wait polls until a poll answers something else than 0 or until
    [polls_before_timeout timeout_ms] polls have found the child running:
    it returns 0 with the normalised status at the first poll that reports
    the child, -1 at the first poll that fails, and 1 when all polls found
    the child running, after as many sleeps of 10 ms. *)
Lemma pty_wait_bounded (timeout_ms : Z) (p : loc) (fuel : nat) (st : proc) :
  0 <= timeout_ms <= 2147483640 ->
  (polls_before_timeout timeout_ms <= fuel)%nat ->
  (forall k, (k < polls_before_timeout timeout_ms)%nat ->
     idle_before os k -> 0 < ret (poll_r os k) ->
     exists st',
       pty_wait os fuel pid timeout_ms (Some p) st = (Returned 0, st') /\
       mem st' = (p, CInt (exit_status (poll_status os k))) :: mem st /\
       log st' = Ev (Waitpid pid true) (ret (poll_r os k))
                 :: idle_rounds os pid 0 k ++ log st) /\
  (forall k, (k < polls_before_timeout timeout_ms)%nat ->
     idle_before os k -> ret (poll_r os k) < 0 ->
     exists st',
       pty_wait os fuel pid timeout_ms (Some p) st = (Returned (-1), st') /\
       mem st' = mem st /\
       log st' = Ev (Waitpid pid true) (ret (poll_r os k))
                 :: idle_rounds os pid 0 k ++ log st) /\
  (idle_before os (polls_before_timeout timeout_ms) ->
     exists st',
       pty_wait os fuel pid timeout_ms (Some p) st = (Returned 1, st') /\
       mem st' = mem st /\
       log st' = idle_rounds os pid 0 (polls_before_timeout timeout_ms) ++ log st).
Proof.
  intros Hrange Hfuel.
  assert (Hn : Z.of_nat (polls_before_timeout timeout_ms) = (timeout_ms + 9) / 10).
  { unfold polls_before_timeout. rewrite Z2Nat.id; [reflexivity |].
    apply Z.div_pos; lia. }
  assert (Hdiv : 10 * ((timeout_ms + 9) / 10) <= timeout_ms + 9).
  { apply (Z.mul_div_le (timeout_ms + 9) 10 eq_refl). }
  assert (Hmax : 10 * ((timeout_ms + 9) / 10) <= INT_MAX).
  { assert ((timeout_ms + 9) / 10 < 214748365).
    { apply Z.div_lt_upper_bound; lia. }
    unfold INT_MAX. lia. }
  split; [| split].
  - intros k Hk Hidle Hret.
    assert (Hint : 0 <= timeout_ms <= INT_MAX) by (unfold INT_MAX; lia).
    assert (Hreach : 10 * Z.of_nat k < timeout_ms) by lia.
    assert (Hk' : (k < fuel)%nat) by lia.
    assert (Hnz : ret (poll_r os k) <> 0) by lia.
    destruct (pty_wait_decided_at os pid timeout_ms (Some p) k fuel st
                Hint Hreach Hk' Hidle Hnz)
      as (st' & Hrun & Hmem & Hlog).
    exists st'. revert Hrun Hmem.
    destruct (Z.ltb_spec (ret (poll_r os k)) 0); [lia |]. auto.
  - intros k Hk Hidle Hret.
    assert (Hint : 0 <= timeout_ms <= INT_MAX) by (unfold INT_MAX; lia).
    assert (Hreach : 10 * Z.of_nat k < timeout_ms) by lia.
    assert (Hk' : (k < fuel)%nat) by lia.
    assert (Hnz : ret (poll_r os k) <> 0) by lia.
    destruct (pty_wait_decided_at os pid timeout_ms (Some p) k fuel st
                Hint Hreach Hk' Hidle Hnz)
      as (st' & Hrun & Hmem & Hlog).
    exists st'. revert Hrun Hmem.
    destruct (Z.ltb_spec (ret (poll_r os k)) 0); [| lia]. auto.
  - intros Hidle. apply pty_wait_gives_up; [lia | lia | exact Hfuel | exact Hidle].
Qed.

(** C9. With a timeout of 0 the loop condition [elapsed < timeout_ms] is
    false at once: [pty_wait] returns 1 and leaves the process state as it
    was, so no [waitpid] is issued and [*out_status] is not written,
    whatever the system would have answered to a poll. *)
Theorem zero_timeout_never_polls
    (fuel : nat) (out_status : option loc) (st : proc) :
  pty_wait os fuel pid 0 out_status st = (Returned 1, st).
Proof.
  unfold pty_wait. cbn. destruct fuel; reflexivity.
Qed.

(** Whatever the bound and however long the loop runs, a bounded wait that
    returns 0 has stored the normalised form of the status delivered by a
    poll that reported the child, and one that returns anything else has
    stored nothing. *)
Lemma poll_loop_stored (timeout_ms : Z) (p : loc) :
  forall (fuel i : nat) (elapsed : Z) (st st' : proc) (r : Z),
    poll_loop os pid timeout_ms (Some p) fuel i elapsed st = (Returned r, st') ->
    (r = 0 /\
     exists j, 0 < ret (poll_r os j) /\
       mem st' = (p, CInt (exit_status (poll_status os j))) :: mem st) \/
    (r <> 0 /\ mem st' = mem st).
Proof.
  induction fuel as [| fuel IH]; intros i elapsed st st' r Hrun;
    cbn [poll_loop] in Hrun;
    destruct (Z.ltb_spec elapsed timeout_ms) as [Hlt | Hge];
    try (injection Hrun as <- <-; right; split; [discriminate | reflexivity]);
    try discriminate Hrun.
  unfold bind at 1 in Hrun. unfold sys at 1 in Hrun. cbn [fst snd ret] in Hrun.
  destruct (Z.ltb_spec (ret (poll_r os i)) 0) as [Hneg | Hnonneg].
  - injection Hrun as <- <-. right. split; [discriminate | reflexivity].
  - rewrite Z.gtb_ltb in Hrun.
    destruct (Z.ltb_spec 0 (ret (poll_r os i))) as [Hpos | Hzero].
    + injection Hrun as <- <-. left. split; [reflexivity |].
      exists i. split; [exact Hpos | reflexivity].
    + unfold bind at 1 in Hrun. unfold sys at 1 in Hrun. cbn [fst snd ret] in Hrun.
      apply IH in Hrun. exact Hrun.
Qed.

(** C4. The value stored in [*out_status] is the exit code (between 0 and
    255) for a status that [WIFEXITED] accepts, 128 plus the signal number
    for one that [WIFSIGNALED] accepts, and -1 for any other status.  With a
    negative timeout one blocking [waitpid] is issued: when it fails
    [pty_wait] returns -1 and stores nothing, otherwise it returns 0 and
    stores the normalised status.  With a bound, the poll that reports the
    child stores the normalised status in the same way, and nothing else is
    ever stored. *)
Theorem exit_status_normalised
    (Hposix : PosixWaitMacros P) (timeout_ms : Z) (p : loc) (fuel k : nat)
    (st : proc) :
  (forall status,
     (WIFEXITED status = true ->
      exit_status status = WEXITSTATUS status /\ 0 <= exit_status status <= 255) /\
     (WIFSIGNALED status = true ->
      exit_status status = 128 + WTERMSIG status) /\
     (WIFEXITED status = false -> WIFSIGNALED status = false ->
      exit_status status = -1)) /\
  (timeout_ms < 0 ->
   let r := pty_wait os fuel pid timeout_ms (Some p) st in
   log (snd r) = Ev (Waitpid pid false) (ret (wait_r os)) :: log st /\
   (ret (wait_r os) < 0 -> fst r = Returned (-1) /\ mem (snd r) = mem st) /\
   (0 <= ret (wait_r os) ->
    fst r = Returned 0 /\
    mem (snd r) = (p, CInt (exit_status (wait_status os))) :: mem st)) /\
  (0 <= timeout_ms <= INT_MAX -> 10 * Z.of_nat k < timeout_ms ->
   (k < fuel)%nat -> idle_before os k -> 0 < ret (poll_r os k) ->
   let r := pty_wait os fuel pid timeout_ms (Some p) st in
   fst r = Returned 0 /\
   mem (snd r) = (p, CInt (exit_status (poll_status os k))) :: mem st) /\
  (0 <= timeout_ms ->
   fst (pty_wait os fuel pid timeout_ms (Some p) st) = Returned 0 ->
   exists j, 0 < ret (poll_r os j) /\
     mem (snd (pty_wait os fuel pid timeout_ms (Some p) st))
     = (p, CInt (exit_status (poll_status os j))) :: mem st).
Proof.
  split; [| split; [| split]].
  - intros status. unfold exit_status. split; [| split].
    + intros ->. split; [reflexivity |]. apply (WEXITSTATUS_range P Hposix).
    + intros Hsig.
      destruct (WIFEXITED status) eqn:Hexit.
      * apply (WIFEXITED_not_signaled P Hposix) in Hexit. congruence.
      * rewrite Hsig. apply wrap_int_id.
        pose proof (WTERMSIG_range P Hposix status).
        unfold INT_MIN, INT_MAX. lia.
    + intros -> ->. reflexivity.
  - intros Hneg r. subst r. crunch; repeat split; intros; lia.
  - intros Hrange Hk Hfuel Hidle Hret r. subst r.
    assert (Hnz : ret (poll_r os k) <> 0) by lia.
    destruct (pty_wait_decided_at os pid timeout_ms (Some p) k fuel st
                Hrange Hk Hfuel Hidle Hnz)
      as (st' & Hrun & Hmem & _).
    rewrite Hrun. revert Hmem.
    destruct (Z.ltb_spec (ret (poll_r os k)) 0); [lia |]. auto.
  - intros Hpos Hret. unfold pty_wait in *.
    destruct (Z.ltb_spec timeout_ms 0); [lia |].
    destruct (poll_loop os pid timeout_ms (Some p) fuel 0%nat 0 st)
      as [o st'] eqn:Hrun.
    cbn [fst snd] in *. subst o.
    destruct (poll_loop_stored timeout_ms p fuel 0%nat 0 st st' 0 Hrun)
      as [(_ & Hstored) | (Hne & _)]; [exact Hstored | contradiction].
Qed.

(** *** The counter at the top of the [int] range *)

Lemma wrap_int_range (z : Z) : INT_MIN <= wrap_int z <= INT_MAX.
Proof.
  unfold wrap_int, INT_MIN, INT_MAX.
  pose proof (Z.mod_pos_bound (z + 2 ^ 31) (2 ^ 32) eq_refl). lia.
Qed.

Lemma wrap_int_even (z : Z) : Z.even (wrap_int z) = Z.even z.
Proof.
  unfold wrap_int.
  rewrite (Z.mod_eq (z + 2 ^ 31) (2 ^ 32)) by discriminate.
  replace (z + 2 ^ 31 - 2 ^ 32 * ((z + 2 ^ 31) / 2 ^ 32) - 2 ^ 31)
    with (z + 2 * (- 2 ^ 31 * ((z + 2 ^ 31) / 2 ^ 32))) by ring.
  apply Z.even_add_mul_2.
Qed.

(** With the bound [INT_MAX], which is odd, the even counter stays below the
    bound for ever: as long as the polls find the child running, the loop
    goes on. *)
Lemma poll_loop_int_max_goes_on (out_status : option loc) :
  (forall i, ret (poll_r os i) = 0) ->
  forall (fuel i : nat) (elapsed : Z) (st : proc),
    Z.even elapsed = true ->
    INT_MIN <= elapsed <= INT_MAX ->
    fst (poll_loop os pid INT_MAX out_status fuel i elapsed st) = OutOfFuel.
Proof.
  intros Hidle. induction fuel as [| fuel IH]; intros i elapsed st Heven Hrange.
  - cbn [poll_loop].
    destruct (Z.ltb_spec elapsed INT_MAX); [reflexivity |].
    assert (elapsed = INT_MAX) by lia. subst elapsed. discriminate Heven.
  - assert (Hlt : elapsed < INT_MAX).
    { destruct (Z.eq_dec elapsed INT_MAX) as [-> | Hne];
        [discriminate Heven | lia]. }
    rewrite (poll_loop_round os pid INT_MAX out_status fuel i elapsed st Hlt (Hidle i)).
    apply IH.
    + rewrite wrap_int_even, Z.even_add, Heven. reflexivity.
    + apply wrap_int_range.
Qed.

End WaitTheorems.

(** C3. [pty_wait] with the bound 2147483647 on a child that every poll
    finds running: the counter reaches 2147483640, which is below the bound,
    [elapsed += 10] leaves the [int] range (the wrapped value is
    -2147483646), and the loop never sees [elapsed >= timeout_ms]: however
    many iterations the model is given, the function has not returned (in
    particular it has not returned 1 after the 214748365 polls that cover
    the bound). *)
Theorem pty_wait_int_max_never_times_out :
  wrap_int (2147483640 + 10) = -2147483646 /\
  forall (P : Platform) (fuel : nat) (pid : Z) (out_status : option loc)
         (st : proc),
    fst (pty_wait Scenario.child_keeps_running fuel pid 2147483647 out_status st)
    = OutOfFuel.
Proof.
  split; [reflexivity |].
  intros P fuel pid out_status st. unfold pty_wait.
  change (2147483647 <? 0) with false. cbv iota.
  apply (poll_loop_int_max_goes_on Scenario.child_keeps_running pid out_status).
  - intros i. reflexivity.
  - reflexivity.
  - unfold INT_MIN, INT_MAX. lia.
Qed.

Lemma exit_status_normalised_witness :
  mem (snd (pty_wait (P := Linux.platform) Scenario.child_exited_3 0 77 (-1)
              (Some 0%nat) Scenario.st0))
  = [(0%nat, CInt 3)] /\
  mem (snd (pty_wait (P := Linux.platform) Scenario.child_killed_at_third_poll
              3 77 1000 (Some 0%nat) Scenario.st0))
  = [(0%nat, CInt 137)].
Proof.
  split.
  - destruct (exit_status_normalised (P := Linux.platform)
                Scenario.child_exited_3 77 linux_posix_wait_macros (-1)
                0%nat 0%nat 0%nat Scenario.st0)
      as (Hcode & Hblocking & _ & _).
    destruct Hblocking as (_ & _ & Hok); [lia |].
    destruct Hok as (_ & Hmem); [simpl; lia |].
    etransitivity; [exact Hmem |].
    destruct (Hcode (wait_status Scenario.child_exited_3)) as (Hexit & _ & _).
    destruct Hexit as (-> & _); reflexivity.
  - destruct (exit_status_normalised (P := Linux.platform)
                Scenario.child_killed_at_third_poll 77 linux_posix_wait_macros
                1000 0%nat 3%nat 2%nat Scenario.st0)
      as (Hcode & _ & Hpoll & _).
    destruct Hpoll as (_ & Hmem).
    + unfold INT_MAX. lia.
    + simpl. lia.
    + lia.
    + intros j Hj. destruct j as [| [| j]]; [reflexivity | reflexivity | lia].
    + simpl. lia.
    + etransitivity; [exact Hmem |].
      destruct (Hcode (poll_status Scenario.child_killed_at_third_poll 2))
        as (_ & Hsig & _).
      rewrite Hsig; reflexivity.
Defined.

(** ** pty_spawn *)

Lemma bind_returned {A B} (m : M A) (k : A -> M B) (st : proc) (a : A) :
  fst (m st) = Returned a -> bind m k st = k a (snd (m st)).
Proof.
  unfold bind. destruct (m st) as [o st']. cbn. intros ->. reflexivity.
Qed.

Lemma sys_returned (c : call) (r : response) (st : proc) :
  fst (sys c r st) = Returned (ret r).
Proof. reflexivity. Qed.

Lemma quiet_mret {A} (a : A) : quiet (mret a).
Proof. intros st. exists []. repeat split. intros set x []. Qed.

Lemma quiet_exit {A} (code : Z) : quiet (@_exit A code).
Proof. intros st. exists []. repeat split. intros set x []. Qed.

Lemma quiet_get_environ : quiet get_environ.
Proof. intros st. exists []. repeat split. intros set x []. Qed.

Lemma quiet_sys (c : call) (r : response) : is_sigmask c = false -> quiet (sys c r).
Proof.
  intros Hc st. exists [Ev c (ret r)].
  destruct c; try discriminate Hc; cbn;
    repeat match goal with |- context [if ?b then _ else _] => destruct b end;
    (split; [reflexivity |]);
    (split; [intros set x [Heq | []]; discriminate Heq |]);
    repeat split.
Qed.

Lemma quiet_execve (p : string) (av env : list string) (failure : option Z) :
  quiet (execve p av env failure).
Proof.
  destruct failure as [e |]; unfold execve.
  - apply quiet_sys. reflexivity.
  - intros st. exists [Ev (Execve p av env) 0]. cbn.
    split; [reflexivity |].
    split; [intros set x [Heq | []]; discriminate Heq |].
    repeat split.
Qed.

Lemma quiet_bind {A B} (m : M A) (k : A -> M B) :
  quiet m -> (forall a, quiet (k a)) -> quiet (bind m k).
Proof.
  intros Hm Hk st. unfold bind.
  destruct (Hm st) as (issued1 & Hlog1 & Hno1 & Hmask1 & Hmem1 & Henv1).
  destruct (m st) as [[a | code | p av ev |] st1]; cbn in *;
    try (exists issued1; repeat split; assumption).
  destruct (Hk a st1) as (issued2 & Hlog2 & Hno2 & Hmask2 & Hmem2 & Henv2).
  exists (issued2 ++ issued1).
  rewrite Hlog2, Hlog1, Hmask2, Hmask1, Hmem2, Hmem1, Henv2, Henv1.
  split; [apply app_assoc |].
  split; [| repeat split].
  intros set x Hin. apply in_app_or in Hin as [Hin | Hin].
  - exact (Hno2 set x Hin).
  - exact (Hno1 set x Hin).
Qed.

Ltac quiet_step :=
  match goal with
  | |- quiet (bind _ _) => apply quiet_bind; [| intros ?]
  | |- quiet (if ?b then _ else _) => destruct b
  | |- quiet (match ?x with _ => _ end) => destruct x
  | |- quiet (sys _ _) => apply quiet_sys; reflexivity
  | |- quiet (mret _) => apply quiet_mret
  | |- quiet (_exit _) => apply quiet_exit
  | |- quiet get_environ => apply quiet_get_environ
  | |- quiet (execve _ _ _ _) => apply quiet_execve
  end.

Section SpawnProps.
Context {P : Platform}.
Variable os : spawn_os.

Lemma quiet_reset_handlers (sigs : list Z) : quiet (reset_handlers os sigs).
Proof.
  induction sigs as [| sig sigs IH]; cbn [reset_handlers];
    repeat quiet_step; assumption.
Qed.

Lemma quiet_child_setup (p : string) (av : list string)
    (ev : option (list string)) (sn : string) (wd : option string) :
  quiet (child_setup os p av ev sn wd).
Proof.
  unfold child_setup, set_controlling_tty, change_directory.
  repeat quiet_step.
Qed.
Lemma quiet_environ {A} (m : M A) (Hq : quiet m) (st : proc) :
  environ (snd (m st)) = environ st.
Proof. destruct (Hq st) as (issued & _ & _ & _ & _ & Henv). exact Henv. Qed.

Lemma environ_sys (c : call) (r : response) (st : proc) :
  environ (snd (sys c r st)) = environ st.
Proof.
  destruct c; cbn;
    repeat match goal with |- context [if ?b then _ else _] => destruct b end;
    reflexivity.
Qed.

Lemma quiet_set_controlling_tty (fd : Z) : quiet (set_controlling_tty os fd).
Proof. unfold set_controlling_tty. repeat quiet_step. Qed.

Lemma quiet_change_directory (wd : option string) : quiet (change_directory os wd).
Proof. unfold change_directory. repeat quiet_step. Qed.

Lemma set_controlling_tty_returns (fd : Z) (st : proc) :
  fst (set_controlling_tty os fd st) = Returned tt.
Proof.
  unfold set_controlling_tty. destruct TIOCSCTTY; [| reflexivity].
  rewrite (bind_returned _ _ _ _ (sys_returned _ _ _)).
  destruct (_ <? _); reflexivity.
Qed.

Lemma change_directory_returns (wd : option string) (st : proc) :
  fst (change_directory os wd st) = Returned tt.
Proof.
  unfold change_directory. destruct wd as [[| c d] |]; try reflexivity.
  rewrite (bind_returned _ _ _ _ (sys_returned _ _ _)).
  destruct (_ <? _); reflexivity.
Qed.

Ltac step_sys := rewrite (bind_returned _ _ _ _ (sys_returned _ _ _)).

Ltac fatal_leaf :=
  split; [reflexivity
         | let Hn := fresh in
           intros Hn; exfalso; apply Hn; unfold fatal_failure,
             STDIN_FILENO, STDOUT_FILENO, STDERR_FILENO; tauto].

Lemma child_setup_outcome (p : string) (av : list string)
    (ev : option (list string)) (sn : string) (wd : option string) (st : proc) :
  (fatal_failure os -> fst (child_setup os p av ev sn wd st) = Exited 127) /\
  (~ fatal_failure os ->
   fst (child_setup os p av ev sn wd st)
   = Execed p av (match ev with Some e => e | None => environ st end)).
Proof.
  unfold child_setup.
  step_sys. destruct (Z.ltb_spec (ret (setsid_r os)) 0) as [Hsid | Hsid];
    [fatal_leaf |].
  step_sys. destruct (Z.ltb_spec (ret (open_r os)) 0) as [Hopen | Hopen];
    [fatal_leaf |].
  rewrite (bind_returned _ _ _ _ (set_controlling_tty_returns _ _)).
  step_sys.
  destruct (Z.ltb_spec (ret (dup2_r os STDIN_FILENO)) 0) as [Hin | Hin];
    [fatal_leaf |].
  step_sys.
  destruct (Z.ltb_spec (ret (dup2_r os STDOUT_FILENO)) 0) as [Hout | Hout];
    [fatal_leaf |].
  step_sys.
  destruct (Z.ltb_spec (ret (dup2_r os STDERR_FILENO)) 0) as [Herr | Herr];
    [fatal_leaf |].
  match goal with
  | |- context [bind (if ?b then ?m1 else ?m2) _ ?s] =>
      assert (Hclose : fst ((if b then m1 else m2) s) = Returned tt)
        by (destruct b; reflexivity);
      assert (Hqclose : quiet (if b then m1 else m2))
        by (repeat quiet_step)
  end.
  rewrite (bind_returned _ _ _ _ Hclose).
  rewrite (bind_returned _ _ _ _ (change_directory_returns _ _)).
  match goal with
  | |- context [bind (match ev with Some e => _ | None => _ end) _ ?s] =>
      assert (Henv : environ s = environ st)
  end.
  { rewrite (quiet_environ _ (quiet_change_directory wd)).
    rewrite (quiet_environ _ Hqclose).
    rewrite !environ_sys.
    rewrite (quiet_environ _ (quiet_set_controlling_tty _)).
    rewrite !environ_sys. reflexivity. }
  clear Hclose. revert Henv.
  match goal with
  | |- context [bind (match ev with Some e => _ | None => _ end) _ ?s] =>
      generalize s
  end.
  intros s Henv. unfold fatal_failure.
  destruct ev as [e |], (execve_fails os) as [errno_exec |];
    unfold bind, execve, get_environ, mret, sys, _exit; cbn [fst snd];
    rewrite ?Henv;
    (split; [intros Hf | intros Hnot]);
    first [ reflexivity
          | exfalso; apply Hnot; do 5 right; discriminate
          | exfalso; unfold STDIN_FILENO, STDOUT_FILENO, STDERR_FILENO in *;
            intuition lia ].
Qed.
Lemma reset_handlers_run (sigs : list Z) :
  forall st, exists st',
    reset_handlers os sigs st = (Returned tt, st') /\
    sigmask st' = sigmask st /\ mem st' = mem st /\
    environ st' = environ st /\
    log st' = rev (reset_calls os sigs) ++ log st.
Proof.
  induction sigs as [| sig sigs IH]; intros st.
  - exists st. repeat split.
  - cbn [reset_handlers]. unfold reset_calls. cbn [filter].
    destruct ((sig =? SIGKILL) || (sig =? SIGSTOP)); cbn [negb].
    + apply IH.
    + rewrite (bind_returned _ _ _ _ (sys_returned _ _ _)).
      destruct (IH (snd (sys (Sigaction sig SIG_DFL) (sigaction_r os sig) st)))
        as (st' & Hrun & Hmask & Hmem & Henv & Hlog).
      exists st'. split; [exact Hrun |].
      rewrite Hmask, Hmem, Henv, Hlog. cbn [map rev].
      rewrite <- app_assoc. unfold reset_calls.
      repeat split; cbn; destruct (ret (sigaction_r os sig) =? 0); reflexivity.
Qed.

(** The run of [pty_spawn] in the child up to the end of the handler reset. *)
Lemma pty_spawn_in_child (a : spawn_args) (p : string) (av : list string)
    (sn : string) (op : loc) (st : proc) :
  path a = Some p -> argv a = Some av -> slave_name a = Some sn ->
  out_pid a = Some op -> ret (fork_r os) = 0 ->
  exists st1,
    pty_spawn os a st = child_setup os p av (envp a) sn (working_dir a) st1 /\
    log st1 = rev (reset_calls os signal_numbers) ++
              [Ev (Sigmask (sigmask st)) 0; Ev Fork 0; Ev (Sigmask sigfillset) 0] ++
              log st /\
    sigmask st1 = sigmask st /\ mem st1 = mem st /\ environ st1 = environ st.
Proof.
  intros Hp Hav Hsn Hop Hfork. unfold pty_spawn. rewrite Hp, Hav, Hsn, Hop.
  unfold spawn_child, pthread_sigmask.
  cbv [bind sys mret]. cbn [fst snd ret kernel_effect]. rewrite Hfork. cbn [Z.eqb].
  match goal with
  | |- context [reset_handlers os signal_numbers ?s] =>
      destruct (reset_handlers_run signal_numbers s)
        as (st1 & Hrun & Hmask & Hmem & Henv & Hlog)
  end.
  rewrite Hrun. exists st1. split; [reflexivity |].
  rewrite Hlog, Hmask, Hmem, Henv. repeat split.
Qed.

(** The run of [pty_spawn] when [fork] fails and in the parent. *)
Lemma pty_spawn_not_child (a : spawn_args) (p : string) (av : list string)
    (sn : string) (op : loc) (st : proc) :
  path a = Some p -> argv a = Some av -> slave_name a = Some sn ->
  out_pid a = Some op -> ret (fork_r os) <> 0 ->
  let r := pty_spawn os a st in
  fst r = Returned (if ret (fork_r os) =? -1 then -1 else 0) /\
  log (snd r) = [Ev (Sigmask (sigmask st)) 0; Ev Fork (ret (fork_r os));
                 Ev (Sigmask sigfillset) 0] ++ log st /\
  sigmask (snd r) = sigmask st /\
  mem (snd r) = (if ret (fork_r os) =? -1 then mem st
                 else (op, CInt (ret (fork_r os))) :: mem st) /\
  (ret (fork_r os) = -1 ->
   errno (snd r)
   = errno_after (fork_r os)
       (match block_clobber os with Some e => e | None => errno st end)).
Proof.
  intros Hp Hav Hsn Hop Hfork r. subst r. unfold pty_spawn.
  rewrite Hp, Hav, Hsn, Hop. unfold pthread_sigmask.
  cbv [bind sys mret store set_errno get_errno].
  cbn [fst snd ret kernel_effect].
  destruct (Z.eqb_spec (ret (fork_r os)) (-1)) as [Hfail | Hok].
  - cbn. repeat split.
  - destruct (Z.eqb_spec (ret (fork_r os)) 0); [contradiction |].
    cbn. repeat split. intros Hfail. contradiction.
Qed.
Lemma fatal_failure_decidable : fatal_failure os \/ ~ fatal_failure os.
Proof.
  unfold fatal_failure.
  destruct (Z_lt_dec (ret (setsid_r os)) 0); [tauto |].
  destruct (Z_lt_dec (ret (open_r os)) 0); [tauto |].
  destruct (Z_lt_dec (ret (dup2_r os STDIN_FILENO)) 0); [tauto |].
  destruct (Z_lt_dec (ret (dup2_r os STDOUT_FILENO)) 0); [tauto |].
  destruct (Z_lt_dec (ret (dup2_r os STDERR_FILENO)) 0); [tauto |].
  destruct (execve_fails os) as [e |].
  - left. do 5 right. discriminate.
  - right. intuition congruence.
Qed.

(** C1 (amended). [pty_spawn] returns -1 exactly when an argument is null
    or [fork] returns -1.  In the child ([fork] returned 0) the function
    never returns: the child exits with code 127 when [setsid], the [open]
    of the slave, one of the three [dup2] calls or [execve] fails, and
    otherwise its image is replaced, whatever the other child-side calls
    (the [sigaction] calls, both controlling-terminal [ioctl]s, the [close]
    of the spare descriptor, [chdir]) answered. *)
Theorem spawn_errors_only_before_fork (a : spawn_args) (st : proc) :
  let r := pty_spawn os a st in
  (fst r = Returned (-1) <->
   (path a = None \/ argv a = None \/ slave_name a = None \/ out_pid a = None)
   \/ ret (fork_r os) = -1) /\
  (forall p av sn op,
     path a = Some p -> argv a = Some av -> slave_name a = Some sn ->
     out_pid a = Some op -> ret (fork_r os) = 0 ->
     (forall v, fst r <> Returned v) /\
     (fatal_failure os -> fst r = Exited 127) /\
     (~ fatal_failure os ->
      fst r = Execed p av (match envp a with Some e => e | None => environ st end))).
Proof.
  intros r. subst r. split.
  - destruct (path a) as [p |] eqn:Hp; [| rewrite pty_spawn_null; tauto].
    destruct (argv a) as [av |] eqn:Hav; [| rewrite pty_spawn_null; tauto].
    destruct (slave_name a) as [sn |] eqn:Hsn; [| rewrite pty_spawn_null; tauto].
    destruct (out_pid a) as [op |] eqn:Hop; [| rewrite pty_spawn_null; tauto].
    destruct (Z.eq_dec (ret (fork_r os)) 0) as [Hchild | Hnot].
    + destruct (pty_spawn_in_child a p av sn op st Hp Hav Hsn Hop Hchild)
        as (st1 & -> & _).
      destruct (child_setup_outcome p av (envp a) sn (working_dir a) st1)
        as (Hfatal & Hexec).
      destruct fatal_failure_decidable as [Hf | Hf];
        [rewrite (Hfatal Hf) | rewrite (Hexec Hf)];
        (split; [discriminate | intros [Hnull | Hfork]; [| lia]];
         intuition discriminate).
    + destruct (pty_spawn_not_child a p av sn op st Hp Hav Hsn Hop Hnot)
        as (-> & _).
      destruct (Z.eqb_spec (ret (fork_r os)) (-1)).
      * tauto.
      * split; [discriminate | intros [Hnull | Hfork]; [| contradiction]].
        intuition discriminate.
  - intros p av sn op Hp Hav Hsn Hop Hchild.
    destruct (pty_spawn_in_child a p av sn op st Hp Hav Hsn Hop Hchild)
      as (st1 & -> & _ & _ & _ & Henv).
    rewrite <- Henv.
    destruct (child_setup_outcome p av (envp a) sn (working_dir a) st1)
      as (Hfatal & Hexec).
    split; [| split; assumption].
    intros v.
    destruct fatal_failure_decidable as [Hf | Hf];
      [rewrite (Hfatal Hf) | rewrite (Hexec Hf)]; discriminate.
Qed.

(** C6. With non-null arguments, [pty_spawn] blocks all signals, forks, and
    restores the saved mask as its very next call, in all three branches.
    No later call changes the mask, so at every exit (the error return, the
    parent's return, the child's [_exit] or its [execve]) the mask is the one
    the caller had.  When [fork] fails, the restore is the last call and
    [errno] holds what [fork] left there, whatever the restore wrote; in the
    parent the restore is the last call, then the pid is stored and 0
    returned. *)
Theorem signal_mask_restored_on_every_path
    (a : spawn_args) (p : string) (av : list string) (sn : string) (op : loc)
    (st : proc) :
  path a = Some p -> argv a = Some av -> slave_name a = Some sn ->
  out_pid a = Some op ->
  let r := pty_spawn os a st in
  sigmask (snd r) = sigmask st /\
  (exists later,
     log (snd r) = later ++
                   [Ev (Sigmask (sigmask st)) 0; Ev Fork (ret (fork_r os));
                    Ev (Sigmask sigfillset) 0] ++ log st /\
     (forall set x, ~ In (Ev (Sigmask set) x) later) /\
     (ret (fork_r os) <> 0 -> later = [])) /\
  (ret (fork_r os) = -1 ->
   fst r = Returned (-1) /\
   forall e, sets_errno (fork_r os) = Some e -> errno (snd r) = e) /\
  (ret (fork_r os) <> -1 -> ret (fork_r os) <> 0 ->
   fst r = Returned 0 /\
   mem (snd r) = (op, CInt (ret (fork_r os))) :: mem st).
Proof.
  intros Hp Hav Hsn Hop r. subst r.
  destruct (Z.eq_dec (ret (fork_r os)) 0) as [Hchild | Hnot].
  - destruct (pty_spawn_in_child a p av sn op st Hp Hav Hsn Hop Hchild)
      as (st1 & -> & Hlog1 & Hmask1 & _).
    destruct (quiet_child_setup p av (envp a) sn (working_dir a) st1)
      as (issued & Hlog & Hno & Hmask & _).
    split; [congruence |]. split; [| split; intros; lia].
    exists (issued ++ rev (reset_calls os signal_numbers)).
    rewrite Hlog, Hlog1, Hchild, <- app_assoc.
    split; [reflexivity |]. split; [| intros; lia].
    intros set x Hin. apply in_app_or in Hin as [Hin | Hin].
    + exact (Hno set x Hin).
    + apply in_rev in Hin. unfold reset_calls in Hin.
      apply in_map_iff in Hin as (sig & Heq & _). discriminate Heq.
  - destruct (pty_spawn_not_child a p av sn op st Hp Hav Hsn Hop Hnot)
      as (Hret & Hlog & Hmask & Hmem & Herrno).
    split; [exact Hmask |]. split; [| split].
    + exists []. split; [exact Hlog |]. split; [intros set x [] | reflexivity].
    + intros Hfail. rewrite Hret, Hfail. split; [reflexivity |].
      intros e He. rewrite (Herrno Hfail). unfold errno_after. rewrite He.
      reflexivity.
    + intros Hne _. rewrite Hret, Hmem.
      destruct (Z.eqb_spec (ret (fork_r os)) (-1)); [contradiction |].
      split; reflexivity.
Qed.

(** In every run of the child the restore of the caller's mask comes first
    and the [sigaction] calls that reset the handlers follow it. *)
Lemma child_restores_mask_then_resets_handlers
    (a : spawn_args) (p : string) (av : list string) (sn : string) (op : loc)
    (st : proc) :
  path a = Some p -> argv a = Some av -> slave_name a = Some sn ->
  out_pid a = Some op -> ret (fork_r os) = 0 ->
  exists later,
    history (snd (pty_spawn os a st))
    = history st ++
      [Ev (Sigmask sigfillset) 0; Ev Fork 0; Ev (Sigmask (sigmask st)) 0] ++
      reset_calls os signal_numbers ++ later.
Proof.
  intros Hp Hav Hsn Hop Hchild.
  destruct (pty_spawn_in_child a p av sn op st Hp Hav Hsn Hop Hchild)
    as (st1 & -> & Hlog1 & _).
  destruct (quiet_child_setup p av (envp a) sn (working_dir a) st1)
    as (issued & Hlog & _).
  exists (rev issued). unfold history. rewrite Hlog, Hlog1.
  rewrite !rev_app_distr, rev_involutive. cbn [rev app].
  rewrite <- !app_assoc. reflexivity.
Qed.
End SpawnProps.

(** *** Runs of pty_spawn on Linux *)

(** C1. The claim as stated fails when [close(slave_fd)] is interrupted in
    the child: the call fails, it is neither the forced controlling-terminal
    [ioctl] nor [chdir], and the child goes on to [execve]. *)
Lemma close_failure_is_not_fatal :
  ~ only_best_effort_steps_nonfatal (P := Linux.platform)
      Scenario.in_child_close_fails Scenario.sh_request Scenario.st0.
Proof.
  intros Hclaim.
  specialize (Hclaim eq_refl (Ev (Close 3) (-1))).
  assert (Hbest : best_effort (Close 3) = true).
  { apply Hclaim.
    - vm_compute. right. left. reflexivity.
    - intros [].
    - reflexivity.
    - vm_compute. discriminate. }
  discriminate Hbest.
Qed.

Lemma spawn_errors_only_before_fork_witness :
  fst (pty_spawn (P := Linux.platform) Scenario.in_child_close_fails
         Scenario.sh_request Scenario.st0)
  = Execed "/bin/sh" ["sh"%string] ["TERM=xterm"%string] /\
  fst (pty_spawn (P := Linux.platform) Scenario.in_child_open_fails
         Scenario.sh_request Scenario.st0)
  = Exited 127.
Proof.
  split.
  - destruct (spawn_errors_only_before_fork (P := Linux.platform)
                Scenario.in_child_close_fails Scenario.sh_request Scenario.st0)
      as (_ & Hchild).
    destruct (Hchild "/bin/sh"%string ["sh"%string] "/dev/pts/4"%string 0%nat
                eq_refl eq_refl eq_refl eq_refl eq_refl) as (_ & _ & Hexec).
    apply Hexec. unfold fatal_failure. cbn.
    intros [H | [H | [H | [H | [H | H]]]]];
      try discriminate H; apply H; reflexivity.
  - destruct (spawn_errors_only_before_fork (P := Linux.platform)
                Scenario.in_child_open_fails Scenario.sh_request Scenario.st0)
      as (_ & Hchild).
    destruct (Hchild "/bin/sh"%string ["sh"%string] "/dev/pts/4"%string 0%nat
                eq_refl eq_refl eq_refl eq_refl eq_refl) as (_ & Hfatal & _).
    apply Hfatal. right. left. reflexivity.
Defined.

Lemma signal_mask_restored_on_every_path_witness :
  let r := pty_spawn (P := Linux.platform) Scenario.fork_fails
             Scenario.sh_request Scenario.st0 in
  fst r = Returned (-1) /\
  sigmask (snd r) = [] /\
  errno (snd r) = Scenario.EAGAIN.
Proof.
  destruct (signal_mask_restored_on_every_path (P := Linux.platform)
              Scenario.fork_fails Scenario.sh_request
              "/bin/sh"%string ["sh"%string] "/dev/pts/4"%string 0%nat
              Scenario.st0 eq_refl eq_refl eq_refl eq_refl)
    as (Hmask & _ & Hfail & _).
  destruct (Hfail eq_refl) as (Hret & Herrno).
  intros r. split; [exact Hret |]. split; [exact Hmask |].
  apply Herrno. reflexivity.
Defined.

(** C2. A run of the child on Linux, in a process that has a handler for
    SIGINT and blocks nothing: the child installs the caller's (empty) mask
    as its first call, before the first [sigaction]; after that call SIGINT
    is unblocked and still has the parent's handler, which the second
    [sigaction] of the loop resets only later. *)
Theorem child_unblocks_signals_before_resetting_handlers :
  let r := pty_spawn (P := Linux.platform) Scenario.in_child
             Scenario.sh_request Scenario.st0 in
  let window := [Ev (Sigmask (sigfillset (P := Linux.platform))) 0;
                 Ev Fork 0;
                 Ev (Sigmask []) 0] in
  firstn 5 (history (snd r))
  = window ++ [Ev (Sigaction 1 SIG_DFL) 0; Ev (Sigaction 2 SIG_DFL) 0] /\
  fst r = Execed "/bin/sh" ["sh"%string] ["TERM=xterm"%string] /\
  handlers (replay window Scenario.st0) Scenario.SIGINT = Handler 7 /\
  sigmask (replay window Scenario.st0) = [] /\
  handler_would_run Scenario.SIGINT (replay window Scenario.st0) = true /\
  handler_would_run Scenario.SIGINT
    (replay (window ++ [Ev (Sigaction 1 SIG_DFL) 0; Ev (Sigaction 2 SIG_DFL) 0])
       Scenario.st0) = false.
Proof.
  intros r window. subst r window.
  repeat split; vm_compute; reflexivity.
Qed.

(** * Further properties *)

(** ** Calls issued and state left alone *)

Lemma log_sys (c : call) (r : response) (st : proc) :
  log (snd (sys c r st)) = Ev c (ret r) :: log st.
Proof.
  destruct c; cbn;
    repeat match goal with |- context [if ?b then _ else _] => destruct b end;
    reflexivity.
Qed.

Lemma handlers_sys (c : call) (r : response) (st : proc) :
  is_sigaction c = false -> handlers (snd (sys c r st)) = handlers st.
Proof.
  intros Hc. destruct c; try discriminate Hc; cbn;
    repeat match goal with |- context [if ?b then _ else _] => destruct b end;
    reflexivity.
Qed.

Lemma fds_sys (c : call) (r : response) (st : proc) :
  touches_fds c = false -> fds (snd (sys c r st)) = fds st.
Proof.
  intros Hc. destruct c; try discriminate Hc; cbn;
    repeat match goal with |- context [if ?b then _ else _] => destruct b end;
    reflexivity.
Qed.

Lemma issues_only_mret {A} (allowed : call -> bool) (a : A) :
  issues_only allowed (mret a).
Proof. intros st. exists []. split; [reflexivity | constructor]. Qed.

Lemma issues_only_exit {A} (allowed : call -> bool) (code : Z) :
  issues_only allowed (@_exit A code).
Proof. intros st. exists []. split; [reflexivity | constructor]. Qed.

Lemma issues_only_get_environ (allowed : call -> bool) :
  issues_only allowed get_environ.
Proof. intros st. exists []. split; [reflexivity | constructor]. Qed.

Lemma issues_only_sys (allowed : call -> bool) (c : call) (r : response) :
  allowed c = true -> issues_only allowed (sys c r).
Proof.
  intros Hc st. exists [Ev c (ret r)]. split; [apply log_sys |].
  constructor; [exact Hc | constructor].
Qed.

Lemma issues_only_execve (allowed : call -> bool) (p : string)
    (av env : list string) (failure : option Z) :
  allowed (Execve p av env) = true ->
  issues_only allowed (execve p av env failure).
Proof.
  intros Hc. destruct failure as [e |]; unfold execve.
  - apply issues_only_sys. exact Hc.
  - intros st. exists [Ev (Execve p av env) 0]. split; [reflexivity |].
    constructor; [exact Hc | constructor].
Qed.

Lemma issues_only_bind {A B} (allowed : call -> bool) (m : M A) (k : A -> M B) :
  issues_only allowed m -> (forall a, issues_only allowed (k a)) ->
  issues_only allowed (bind m k).
Proof.
  intros Hm Hk st. unfold bind.
  destruct (Hm st) as (issued1 & Hlog1 & Hall1).
  destruct (m st) as [[a | code | p av ev |] st1]; cbn in *;
    try (exists issued1; split; assumption).
  destruct (Hk a st1) as (issued2 & Hlog2 & Hall2).
  exists (issued2 ++ issued1). rewrite Hlog2, Hlog1.
  split; [apply app_assoc | apply Forall_app; split; assumption].
Qed.

Lemma preserves_mret {A X} (f : proc -> X) (a : A) : preserves f (mret a).
Proof. intros st. reflexivity. Qed.

Lemma preserves_exit {A X} (f : proc -> X) (code : Z) : preserves f (@_exit A code).
Proof. intros st. reflexivity. Qed.

Lemma preserves_get_environ {X} (f : proc -> X) : preserves f get_environ.
Proof. intros st. reflexivity. Qed.

Lemma preserves_bind {A B X} (f : proc -> X) (m : M A) (k : A -> M B) :
  preserves f m -> (forall a, preserves f (k a)) -> preserves f (bind m k).
Proof.
  intros Hm Hk st. unfold bind. specialize (Hm st).
  destruct (m st) as [[a | code | p av ev |] st1]; cbn in *; try exact Hm.
  rewrite (Hk a st1). exact Hm.
Qed.

Lemma preserves_handlers_sys (c : call) (r : response) :
  is_sigaction c = false -> preserves handlers (sys c r).
Proof. intros Hc st. apply handlers_sys. exact Hc. Qed.

Lemma preserves_fds_sys (c : call) (r : response) :
  touches_fds c = false -> preserves fds (sys c r).
Proof. intros Hc st. apply fds_sys. exact Hc. Qed.

Lemma preserves_handlers_execve (p : string) (av env : list string)
    (failure : option Z) :
  preserves handlers (execve p av env failure).
Proof.
  destruct failure; unfold execve;
    [apply preserves_handlers_sys; reflexivity | intros st; reflexivity].
Qed.

Lemma preserves_fds_execve (p : string) (av env : list string)
    (failure : option Z) :
  preserves fds (execve p av env failure).
Proof.
  destruct failure; unfold execve;
    [apply preserves_fds_sys; reflexivity | intros st; reflexivity].
Qed.

Ltac preserves_step :=
  match goal with
  | |- preserves _ (bind _ _) => apply preserves_bind; [| intros ?]
  | |- preserves _ (if ?b then _ else _) => destruct b
  | |- preserves _ (match ?x with _ => _ end) => destruct x
  | |- preserves handlers (sys _ _) => apply preserves_handlers_sys; reflexivity
  | |- preserves fds (sys _ _) => apply preserves_fds_sys; reflexivity
  | |- preserves _ (mret _) => apply preserves_mret
  | |- preserves _ (_exit _) => apply preserves_exit
  | |- preserves _ get_environ => apply preserves_get_environ
  | |- preserves handlers (execve _ _ _ _) => apply preserves_handlers_execve
  | |- preserves fds (execve _ _ _ _) => apply preserves_fds_execve
  end.

Ltac issues_step :=
  match goal with
  | |- issues_only _ (bind _ _) => apply issues_only_bind; [| intros ?]
  | |- issues_only _ (mret _) => apply issues_only_mret
  | |- issues_only _ (_exit _) => apply issues_only_exit
  | |- issues_only _ get_environ => apply issues_only_get_environ
  | |- issues_only _ (execve _ _ _ _) => apply issues_only_execve; reflexivity
  end.

Ltac step_call := rewrite (bind_returned _ _ _ _ (sys_returned _ _ _)).

(** ** pty_spawn: the child *)

Section SpawnMore.
Context {P : Platform}.
Variable os : spawn_os.

Lemma in_signal_numbers (s : Z) : In s signal_numbers <-> 1 <= s < NSIG.
Proof.
  unfold signal_numbers. rewrite in_map_iff. split.
  - intros (n & <- & Hn). apply in_seq in Hn. lia.
  - intros Hs. exists (Z.to_nat s). split; [lia |]. apply in_seq. lia.
Qed.

Lemma reset_handlers_handlers (sigs : list Z) :
  forall (st : proc) (s : Z),
    handlers (snd (reset_handlers os sigs st)) s
    = if existsb (Z.eqb s) sigs
         && negb ((s =? SIGKILL) || (s =? SIGSTOP))
         && (ret (sigaction_r os s) =? 0)
      then SIG_DFL else handlers st s.
Proof.
  induction sigs as [| sig sigs IH]; intros st s; [reflexivity |].
  cbn [reset_handlers existsb].
  destruct ((sig =? SIGKILL) || (sig =? SIGSTOP)) eqn:Hskip.
  - rewrite IH.
    destruct (Z.eqb_spec s sig) as [-> | Hne]; [| reflexivity].
    rewrite Hskip. cbn [orb negb andb]. rewrite andb_false_r. reflexivity.
  - rewrite (bind_returned _ _ _ _ (sys_returned _ _ _)), IH.
    unfold sys. cbn [snd ret kernel_effect].
    destruct (Z.eqb_spec s sig) as [-> | Hne].
    + rewrite Hskip. cbn [orb negb andb].
      destruct (ret (sigaction_r os sig) =? 0) eqn:Hok.
      * rewrite andb_true_r. cbn. unfold set_handler. rewrite Z.eqb_refl.
        destruct (existsb (Z.eqb sig) sigs); reflexivity.
      * rewrite andb_false_r. reflexivity.
    + cbn [orb].
      destruct (ret (sigaction_r os sig) =? 0); cbn; unfold set_handler;
        try (destruct (Z.eqb_spec s sig); [contradiction |]); reflexivity.
Qed.

Lemma preserves_fds_reset_handlers (sigs : list Z) :
  preserves fds (reset_handlers os sigs).
Proof.
  induction sigs as [| sig sigs IH]; cbn [reset_handlers];
    repeat preserves_step; assumption.
Qed.

Lemma preserves_handlers_child_setup (p : string) (av : list string)
    (ev : option (list string)) (sn : string) (wd : option string) :
  preserves handlers (child_setup os p av ev sn wd).
Proof.
  unfold child_setup, set_controlling_tty, change_directory.
  repeat preserves_step.
Qed.

Lemma existsb_signal_numbers (s : Z) :
  existsb (Z.eqb s) signal_numbers = (1 <=? s) && (s <? NSIG).
Proof.
  destruct (existsb (Z.eqb s) signal_numbers) eqn:Hex.
  - apply existsb_exists in Hex as (x & Hin & Heq).
    apply Z.eqb_eq in Heq. subst x. apply in_signal_numbers in Hin.
    symmetry. apply andb_true_iff. split; [apply Z.leb_le | apply Z.ltb_lt]; lia.
  - symmetry. apply not_true_iff_false. intros Htrue.
    apply andb_true_iff in Htrue as (Hlo & Hhi).
    apply Z.leb_le in Hlo. apply Z.ltb_lt in Hhi.
    assert (Hin : In s signal_numbers) by (apply in_signal_numbers; lia).
    assert (Hex' : existsb (Z.eqb s) signal_numbers = true).
    { apply existsb_exists. exists s. split; [exact Hin | apply Z.eqb_refl]. }
    congruence.
Qed.

(** The state in which the child starts [child_setup]. *)
Lemma pty_spawn_child_state (a : spawn_args) (p : string) (av : list string)
    (sn : string) (op : loc) (st : proc) :
  path a = Some p -> argv a = Some av -> slave_name a = Some sn ->
  out_pid a = Some op -> ret (fork_r os) = 0 ->
  exists st1,
    pty_spawn os a st = child_setup os p av (envp a) sn (working_dir a) st1 /\
    log st1 = rev (reset_calls os signal_numbers) ++
              [Ev (Sigmask (sigmask st)) 0; Ev Fork 0; Ev (Sigmask sigfillset) 0] ++
              log st /\
    fds st1 = fds st /\ mem st1 = mem st /\ environ st1 = environ st /\
    forall s, handlers st1 s
              = if reset_attempted s && (ret (sigaction_r os s) =? 0)
                then SIG_DFL else handlers st s.
Proof.
  intros Hp Hav Hsn Hop Hfork. unfold pty_spawn. rewrite Hp, Hav, Hsn, Hop.
  unfold spawn_child, pthread_sigmask.
  cbv [bind sys mret]. cbn [fst snd ret kernel_effect]. rewrite Hfork. cbn [Z.eqb].
  match goal with
  | |- context [reset_handlers os signal_numbers ?s] =>
      destruct (reset_handlers_run os signal_numbers s)
        as (st1 & Hrun & _ & Hmem & Henv & Hlog);
      pose proof (preserves_fds_reset_handlers signal_numbers s) as Hfds;
      pose proof (reset_handlers_handlers signal_numbers s) as Hhandlers
  end.
  rewrite Hrun in *. cbn [snd] in *. exists st1.
  split; [reflexivity |]. rewrite Hlog, Hmem, Henv, Hfds.
  repeat split. intros s. rewrite Hhandlers.
  unfold reset_attempted. rewrite existsb_signal_numbers. reflexivity.
Qed.

Lemma issues_only_bind_sys {B} (allowed : call -> bool) (c : call)
    (r : response) (k : Z -> M B) :
  allowed c = true -> issues_only allowed (k (ret r)) ->
  issues_only allowed (bind (sys c r) k).
Proof.
  intros Hc Hk st. rewrite (bind_returned _ _ _ _ (sys_returned c r st)).
  destruct (Hk (snd (sys c r st))) as (issued & Hlog & Hall).
  exists (issued ++ [Ev c (ret r)]). rewrite Hlog, log_sys, <- app_assoc.
  split; [reflexivity |]. apply Forall_app. split; [exact Hall |].
  constructor; [exact Hc | constructor].
Qed.

Ltac allowed_call :=
  first [ reflexivity
        | cbn; rewrite Z.eqb_refl; first [assumption | reflexivity] ].

Lemma issues_only_child_setup (p : string) (av : list string)
    (ev : option (list string)) (sn : string) (wd : option string) :
  issues_only (setup_call (ret (open_r os))) (child_setup os p av ev sn wd).
Proof.
  unfold child_setup, set_controlling_tty, change_directory,
    STDIN_FILENO, STDOUT_FILENO, STDERR_FILENO.
  apply issues_only_bind_sys; [allowed_call |].
  destruct (_ <? _); [issues_step |].
  apply issues_only_bind_sys; [allowed_call |].
  destruct (_ <? _); [issues_step |].
  apply issues_only_bind.
  { destruct TIOCSCTTY; [| issues_step].
    apply issues_only_bind_sys; [allowed_call |].
    destruct (_ <? _); [| issues_step].
    apply issues_only_bind_sys; [allowed_call | issues_step]. }
  intros _.
  apply issues_only_bind_sys; [allowed_call |].
  destruct (_ <? _); [issues_step |].
  apply issues_only_bind_sys; [allowed_call |].
  destruct (_ <? _); [issues_step |].
  apply issues_only_bind_sys; [allowed_call |].
  destruct (_ <? _); [issues_step |].
  apply issues_only_bind.
  { destruct (ret (open_r os) >? 2) eqn:Habove; [| issues_step].
    apply issues_only_bind_sys; [allowed_call | issues_step]. }
  intros _.
  apply issues_only_bind.
  { destruct wd as [[| c d] |]; [issues_step | | issues_step].
    apply issues_only_bind_sys; [allowed_call |].
    destruct (_ <? _); issues_step. }
  intros _.
  apply issues_only_bind; [destruct ev; issues_step |].
  intros env. repeat issues_step.
Qed.

Lemma set_controlling_tty_log (fd : Z) (st : proc) :
  log (snd (set_controlling_tty os fd st)) = rev (tty_calls os fd) ++ log st.
Proof.
  unfold set_controlling_tty, tty_calls. destruct TIOCSCTTY; [| reflexivity].
  rewrite (bind_returned _ _ _ _ (sys_returned _ _ _)).
  destruct (_ <? _).
  - rewrite (bind_returned _ _ _ _ (sys_returned _ _ _)). cbn [mret snd].
    rewrite !log_sys. reflexivity.
  - cbn [mret snd]. rewrite log_sys. reflexivity.
Qed.

Lemma preserves_fds_set_controlling_tty (fd : Z) :
  preserves fds (set_controlling_tty os fd).
Proof. unfold set_controlling_tty. repeat preserves_step. Qed.

Lemma change_directory_log (wd : option string) (st : proc) :
  log (snd (change_directory os wd st))
  = match wd with
    | Some (String c d) => [Ev (Chdir (String c d)) (ret (chdir_r os))]
    | _ => []
    end ++ log st.
Proof.
  unfold change_directory. destruct wd as [[| c d] |]; try reflexivity.
  rewrite (bind_returned _ _ _ _ (sys_returned _ _ _)).
  destruct (_ <? _); cbn [mret snd]; rewrite log_sys; reflexivity.
Qed.

Lemma preserves_fds_change_directory (wd : option string) :
  preserves fds (change_directory os wd).
Proof. unfold change_directory. repeat preserves_step. Qed.

Lemma fds_dup2 (oldfd newfd : Z) (r : response) (st : proc) :
  0 <= ret r ->
  fds (snd (sys (Dup2 oldfd newfd) r st)) = newfd :: remove Z.eq_dec newfd (fds st).
Proof.
  intros Hr. unfold sys. cbn [snd ret kernel_effect].
  destruct (Z.leb_spec 0 (ret r)); [reflexivity | lia].
Qed.

Lemma fds_open (name : string) (r : response) (st : proc) :
  0 <= ret r -> fds (snd (sys (Open name) r st)) = ret r :: fds st.
Proof.
  intros Hr. unfold sys. cbn [snd ret kernel_effect].
  destruct (Z.leb_spec 0 (ret r)); [reflexivity | lia].
Qed.

(** The run of [child_setup] when no fatal step fails. *)
Lemma child_setup_exec (p : string) (av : list string)
    (ev : option (list string)) (sn : string) (wd : option string) (st : proc) :
  ~ fatal_failure os ->
  let env := match ev with Some e => e | None => environ st end in
  let st' := snd (child_setup os p av ev sn wd st) in
  log st' = Ev (Execve p av env) 0 :: rev (calls_before_exec os sn wd) ++ log st /\
  fds st' =
    (if ret (open_r os) >? 2
     then remove Z.eq_dec (ret (open_r os))
     else fun l => l)
      (2 :: remove Z.eq_dec 2
         (1 :: remove Z.eq_dec 1
            (0 :: remove Z.eq_dec 0 (ret (open_r os) :: fds st)))).
Proof.
  intros Hnot env st'. subst st'.
  unfold fatal_failure, STDIN_FILENO, STDOUT_FILENO, STDERR_FILENO in Hnot.
  assert (Hsid : 0 <= ret (setsid_r os)) by lia.
  assert (Hopen : 0 <= ret (open_r os)) by lia.
  assert (H0 : 0 <= ret (dup2_r os 0)) by lia.
  assert (H1 : 0 <= ret (dup2_r os 1)) by lia.
  assert (H2 : 0 <= ret (dup2_r os 2)) by lia.
  assert (Hexec : execve_fails os = None).
  { destruct (execve_fails os); [exfalso; apply Hnot; do 5 right; discriminate
                                | reflexivity]. }
  unfold child_setup, STDIN_FILENO, STDOUT_FILENO, STDERR_FILENO.
  step_call. destruct (Z.ltb_spec (ret (setsid_r os)) 0); [lia |].
  step_call. destruct (Z.ltb_spec (ret (open_r os)) 0); [lia |].
  rewrite (bind_returned _ _ _ _ (set_controlling_tty_returns os _ _)).
  step_call. destruct (Z.ltb_spec (ret (dup2_r os 0)) 0); [lia |].
  step_call. destruct (Z.ltb_spec (ret (dup2_r os 1)) 0); [lia |].
  step_call. destruct (Z.ltb_spec (ret (dup2_r os 2)) 0); [lia |].
  match goal with
  | |- context [bind (if ?b then ?m1 else ?m2) _ ?s] =>
      assert (Hclose : fst ((if b then m1 else m2) s) = Returned tt)
        by (destruct b; reflexivity);
      assert (Hcloselog :
                log (snd ((if b then m1 else m2) s))
                = (if b then [Ev (Close (ret (open_r os))) (ret (close_r os))]
                   else []) ++ log s)
        by (destruct b; [rewrite (bind_returned _ _ _ _ (sys_returned _ _ _));
                         cbn [mret snd]; rewrite log_sys |]; reflexivity);
      assert (Hclosefds :
                fds (snd ((if b then m1 else m2) s))
                = (if b then remove Z.eq_dec (ret (open_r os)) else fun l => l)
                    (fds s))
        by (destruct b; reflexivity);
      assert (Hcloseenv : environ (snd ((if b then m1 else m2) s)) = environ s)
        by (destruct b; reflexivity)
  end.
  rewrite (bind_returned _ _ _ _ Hclose).
  rewrite (bind_returned _ _ _ _ (change_directory_returns os _ _)).
  match goal with
  | |- context [bind (match ev with Some e => _ | None => _ end) _ ?s] =>
      assert (Hlog : log s = rev (calls_before_exec os sn wd) ++ log st);
      [| assert (Hfds : fds s =
            (if ret (open_r os) >? 2
             then remove Z.eq_dec (ret (open_r os))
             else fun l => l)
              (2 :: remove Z.eq_dec 2
                 (1 :: remove Z.eq_dec 1
                    (0 :: remove Z.eq_dec 0 (ret (open_r os) :: fds st)))));
         [| assert (Henv : environ s = environ st) ] ]
  end.
  - rewrite change_directory_log, Hcloselog, !log_sys, set_controlling_tty_log,
      !log_sys.
    unfold calls_before_exec.
    rewrite !rev_app_distr, <- !app_assoc. cbn [rev app].
    f_equal.
    { destruct wd as [[| c d] |]; reflexivity. }
    f_equal.
    { destruct (ret (open_r os) >? 2); reflexivity. }
  - rewrite (preserves_fds_change_directory wd), Hclosefds.
    rewrite !fds_dup2 by assumption.
    rewrite (preserves_fds_set_controlling_tty _).
    rewrite fds_open by assumption.
    rewrite fds_sys by reflexivity. reflexivity.
  - rewrite (quiet_environ _ (quiet_change_directory os wd)), Hcloseenv.
    rewrite !environ_sys.
    rewrite (quiet_environ _ (quiet_set_controlling_tty os _)).
    rewrite !environ_sys. reflexivity.
  - clear Hclose Hcloselog Hclosefds Hcloseenv. revert Hlog Hfds Henv.
    match goal with
    | |- context [bind (match ev with Some e => _ | None => _ end) _ ?s] =>
        generalize s
    end.
    intros s Hlog Hfds Henv. subst env.
    destruct ev as [e |]; unfold bind, execve, get_environ, mret;
      rewrite Hexec; cbn [fst snd log fds with_log];
      rewrite ?Henv, Hlog, Hfds; split; reflexivity.
Qed.

(** When [child_setup] ends in [_exit(127)], the call logged last is the
    one that failed. *)
Lemma child_setup_fatal_last (p : string) (av : list string)
    (ev : option (list string)) (sn : string) (wd : option string) (st : proc) :
  fst (child_setup os p av ev sn wd st) = Exited 127 ->
  exists e,
    hd_error (log (snd (child_setup os p av ev sn wd st))) = Some e /\
    ev_ret e < 0 /\ fatal_call (ev_call e) = true.
Proof.
  unfold child_setup.
  step_call. destruct (Z.ltb_spec (ret (setsid_r os)) 0);
    [intros _; eexists; cbn [_exit snd]; rewrite log_sys;
     repeat split; assumption |].
  step_call. destruct (Z.ltb_spec (ret (open_r os)) 0);
    [intros _; eexists; cbn [_exit snd]; rewrite log_sys;
     repeat split; assumption |].
  rewrite (bind_returned _ _ _ _ (set_controlling_tty_returns os _ _)).
  step_call. destruct (Z.ltb_spec (ret (dup2_r os STDIN_FILENO)) 0);
    [intros _; eexists; cbn [_exit snd]; rewrite log_sys;
     repeat split; assumption |].
  step_call. destruct (Z.ltb_spec (ret (dup2_r os STDOUT_FILENO)) 0);
    [intros _; eexists; cbn [_exit snd]; rewrite log_sys;
     repeat split; assumption |].
  step_call. destruct (Z.ltb_spec (ret (dup2_r os STDERR_FILENO)) 0);
    [intros _; eexists; cbn [_exit snd]; rewrite log_sys;
     repeat split; assumption |].
  match goal with
  | |- context [bind (if ?b then ?m1 else ?m2) _ ?s] =>
      assert (Hclose : fst ((if b then m1 else m2) s) = Returned tt)
        by (destruct b; reflexivity)
  end.
  rewrite (bind_returned _ _ _ _ Hclose). clear Hclose.
  rewrite (bind_returned _ _ _ _ (change_directory_returns os _ _)).
  match goal with
  | |- context [bind (match ev with Some e => _ | None => _ end) _ ?s] =>
      generalize s
  end.
  intros s.
  destruct ev as [e |], (execve_fails os) as [errno_exec |];
    cbv [bind get_environ mret execve sys _exit fails]; cbn;
    try discriminate;
    intros _; eexists; repeat split; reflexivity.
Qed.

(** X1. [pty_spawn] issues no system call exactly when one of its four
    pointer arguments, [out_pid] included, is null; it then returns -1 with
    [errno] set to EINVAL and nothing else changed. *)
Theorem pty_spawn_issues_no_call_iff_null (a : spawn_args) (st : proc) :
  let r := pty_spawn os a st in
  (log (snd r) = log st <->
   path a = None \/ argv a = None \/ slave_name a = None \/ out_pid a = None) /\
  (out_pid a = None -> fst r = Returned (-1) /\ only_einval_set st (snd r)).
Proof.
  intros r. subst r. split.
  - split.
    + intros Hlog.
      destruct (path a) as [p |] eqn:Hp; [| tauto].
      destruct (argv a) as [av |] eqn:Hav; [| tauto].
      destruct (slave_name a) as [sn |] eqn:Hsn; [| tauto].
      destruct (out_pid a) as [op |] eqn:Hop; [| tauto].
      exfalso. apply (f_equal (@List.length event)) in Hlog.
      destruct (Z.eq_dec (ret (fork_r os)) 0) as [Hchild | Hnot].
      * destruct (pty_spawn_in_child os a p av sn op st Hp Hav Hsn Hop Hchild)
          as (st1 & Hrun & Hlog1 & _).
        rewrite Hrun in Hlog.
        destruct (quiet_child_setup os p av (envp a) sn (working_dir a) st1)
          as (issued & Hlog2 & _).
        rewrite Hlog2, Hlog1, !length_app in Hlog. cbn in Hlog. lia.
      * destruct (pty_spawn_not_child os a p av sn op st Hp Hav Hsn Hop Hnot)
          as (_ & Hlog' & _).
        rewrite Hlog', length_app in Hlog. cbn in Hlog. lia.
    + intros Hnull. rewrite pty_spawn_null by exact Hnull. reflexivity.
  - intros Hnull. rewrite pty_spawn_null by tauto. repeat split.
Qed.

(** X2. [*out_pid] is written only by the parent on success: a run either
    returns 0 after storing the value [fork] returned, which is then neither
    0 nor -1, or it does not return 0 and has stored nothing. *)
Theorem out_pid_written_only_by_parent (a : spawn_args) (st : proc) :
  let r := pty_spawn os a st in
  (fst r = Returned 0 /\
   ret (fork_r os) <> 0 /\ ret (fork_r os) <> -1 /\
   exists op, out_pid a = Some op /\
     mem (snd r) = (op, CInt (ret (fork_r os))) :: mem st) \/
  (fst r <> Returned 0 /\ mem (snd r) = mem st).
Proof.
  intros r. subst r.
  destruct (path a) as [p |] eqn:Hp;
    [| right; rewrite pty_spawn_null by tauto; split; [discriminate | reflexivity]].
  destruct (argv a) as [av |] eqn:Hav;
    [| right; rewrite pty_spawn_null by tauto; split; [discriminate | reflexivity]].
  destruct (slave_name a) as [sn |] eqn:Hsn;
    [| right; rewrite pty_spawn_null by tauto; split; [discriminate | reflexivity]].
  destruct (out_pid a) as [op |] eqn:Hop;
    [| right; rewrite pty_spawn_null by tauto; split; [discriminate | reflexivity]].
  destruct (Z.eq_dec (ret (fork_r os)) 0) as [Hchild | Hnot].
  - right.
    destruct (pty_spawn_in_child os a p av sn op st Hp Hav Hsn Hop Hchild)
      as (st1 & -> & _ & _ & Hmem1 & _).
    destruct (quiet_child_setup os p av (envp a) sn (working_dir a) st1)
      as (issued & _ & _ & _ & Hmem & _).
    split; [| congruence].
    destruct (child_setup_outcome os p av (envp a) sn (working_dir a) st1)
      as (Hfatal & Hexec).
    destruct (fatal_failure_decidable os) as [Hf | Hf];
      [rewrite (Hfatal Hf) | rewrite (Hexec Hf)]; discriminate.
  - destruct (pty_spawn_not_child os a p av sn op st Hp Hav Hsn Hop Hnot)
      as (Hret & _ & _ & Hmem & _).
    rewrite Hret, Hmem.
    destruct (Z.eqb_spec (ret (fork_r os)) (-1)) as [Hfail | Hok].
    + right. split; [discriminate | reflexivity].
    + left. repeat split; try assumption. exists op. split; reflexivity.
Qed.

(** X3. In the child, [sigaction] is called for exactly the signal numbers
    from 1 to [NSIG - 1] other than SIGKILL and SIGSTOP, always to install
    the default disposition. *)
Theorem child_resets_exactly_the_catchable_signals
    (a : spawn_args) (p : string) (av : list string) (sn : string) (op : loc)
    (st : proc) :
  path a = Some p -> argv a = Some av -> slave_name a = Some sn ->
  out_pid a = Some op -> ret (fork_r os) = 0 ->
  exists issued,
    log (snd (pty_spawn os a st)) = issued ++ log st /\
    forall sig d x,
      In (Ev (Sigaction sig d) x) issued <->
      (1 <= sig < NSIG /\ sig <> SIGKILL /\ sig <> SIGSTOP) /\
      d = SIG_DFL /\ x = ret (sigaction_r os sig).
Proof.
  intros Hp Hav Hsn Hop Hchild.
  destruct (pty_spawn_in_child os a p av sn op st Hp Hav Hsn Hop Hchild)
    as (st1 & -> & Hlog1 & _).
  destruct (issues_only_child_setup p av (envp a) sn (working_dir a) st1)
    as (issued & Hlog & Hall).
  exists (issued ++ rev (reset_calls os signal_numbers) ++
          [Ev (Sigmask (sigmask st)) 0; Ev Fork 0; Ev (Sigmask sigfillset) 0]).
  split; [rewrite Hlog, Hlog1, <- !app_assoc; reflexivity |].
  intros sig d x. rewrite !in_app_iff, <- in_rev. unfold reset_calls.
  rewrite in_map_iff. split.
  - intros [Hin | [(s & Heq & Hin) | Hin]].
    + rewrite Forall_forall in Hall. apply Hall in Hin. discriminate Hin.
    + injection Heq as <- <- <-. apply filter_In in Hin as (Hin & Hkeep).
      apply in_signal_numbers in Hin.
      apply negb_true_iff, orb_false_iff in Hkeep as (Hkill & Hstop).
      apply Z.eqb_neq in Hkill, Hstop. tauto.
    + cbn in Hin. intuition discriminate.
  - intros ((Hrange & Hkill & Hstop) & -> & ->). right. left.
    exists sig. split; [reflexivity |]. apply filter_In.
    split; [apply in_signal_numbers; exact Hrange |].
    apply negb_true_iff, orb_false_iff. split; apply Z.eqb_neq; assumption.
Qed.

(** X4. When the child leaves [pty_spawn] (by [execve] or [_exit]), a signal
    whose [sigaction] call succeeded has the default disposition, and every
    other signal (out of range, SIGKILL, SIGSTOP, or one whose [sigaction]
    failed) has the disposition inherited from the parent. *)
Theorem child_dispositions_at_exit
    (a : spawn_args) (p : string) (av : list string) (sn : string) (op : loc)
    (st : proc) (s : Z) :
  path a = Some p -> argv a = Some av -> slave_name a = Some sn ->
  out_pid a = Some op -> ret (fork_r os) = 0 ->
  (1 <= s < NSIG -> s <> SIGKILL -> s <> SIGSTOP ->
   ret (sigaction_r os s) = 0 ->
   handlers (snd (pty_spawn os a st)) s = SIG_DFL) /\
  (s < 1 \/ NSIG <= s \/ s = SIGKILL \/ s = SIGSTOP \/
   ret (sigaction_r os s) <> 0 ->
   handlers (snd (pty_spawn os a st)) s = handlers st s).
Proof.
  intros Hp Hav Hsn Hop Hchild.
  destruct (pty_spawn_child_state a p av sn op st Hp Hav Hsn Hop Hchild)
    as (st1 & -> & _ & _ & _ & _ & Hhandlers).
  rewrite (preserves_handlers_child_setup p av (envp a) sn (working_dir a) st1).
  rewrite Hhandlers. unfold reset_attempted.
  destruct (Z.leb_spec 1 s), (Z.ltb_spec s NSIG), (Z.eqb_spec s SIGKILL),
    (Z.eqb_spec s SIGSTOP), (Z.eqb_spec (ret (sigaction_r os s)) 0);
    cbn [andb orb negb]; split; intros; try reflexivity; try lia;
    intuition lia.
Qed.

(** X5. Whatever the arguments and the answers of the system, the only
    descriptor [pty_spawn] closes is the slave descriptor it opened itself
    in the child, and only when that descriptor is above 2; the only
    [dup2] calls copy that descriptor onto 0, 1 or 2. *)
Theorem spawn_closes_only_its_slave_descriptor (a : spawn_args) (st : proc) :
  exists issued,
    log (snd (pty_spawn os a st)) = issued ++ log st /\
    (forall fd x, In (Ev (Close fd) x) issued ->
       ret (fork_r os) = 0 /\ fd = ret (open_r os) /\ 2 < fd) /\
    (forall oldfd newfd x, In (Ev (Dup2 oldfd newfd) x) issued ->
       ret (fork_r os) = 0 /\ oldfd = ret (open_r os) /\ 0 <= newfd <= 2).
Proof.
  destruct (path a) as [p |] eqn:Hp;
    [| exists []; rewrite pty_spawn_null by tauto;
       split; [reflexivity | split; intros; contradiction]].
  destruct (argv a) as [av |] eqn:Hav;
    [| exists []; rewrite pty_spawn_null by tauto;
       split; [reflexivity | split; intros; contradiction]].
  destruct (slave_name a) as [sn |] eqn:Hsn;
    [| exists []; rewrite pty_spawn_null by tauto;
       split; [reflexivity | split; intros; contradiction]].
  destruct (out_pid a) as [op |] eqn:Hop;
    [| exists []; rewrite pty_spawn_null by tauto;
       split; [reflexivity | split; intros; contradiction]].
  destruct (Z.eq_dec (ret (fork_r os)) 0) as [Hchild | Hnot].
  - destruct (pty_spawn_in_child os a p av sn op st Hp Hav Hsn Hop Hchild)
      as (st1 & -> & Hlog1 & _).
    destruct (issues_only_child_setup p av (envp a) sn (working_dir a) st1)
      as (issued & Hlog & Hall).
    rewrite Forall_forall in Hall.
    exists (issued ++ rev (reset_calls os signal_numbers) ++
            [Ev (Sigmask (sigmask st)) 0; Ev Fork 0; Ev (Sigmask sigfillset) 0]).
    split; [rewrite Hlog, Hlog1, <- !app_assoc; reflexivity |].
    split.
    + intros fd x Hin. rewrite !in_app_iff, <- in_rev in Hin.
      destruct Hin as [Hin | [Hin | Hin]].
      * apply Hall in Hin. cbn in Hin.
        apply andb_true_iff in Hin as (Heq & Habove).
        apply Z.eqb_eq in Heq. rewrite Z.gtb_ltb in Habove.
        apply Z.ltb_lt in Habove. tauto.
      * unfold reset_calls in Hin. apply in_map_iff in Hin as (s & Heq & _).
        discriminate Heq.
      * cbn in Hin. intuition discriminate.
    + intros oldfd newfd x Hin. rewrite !in_app_iff, <- in_rev in Hin.
      destruct Hin as [Hin | [Hin | Hin]].
      * apply Hall in Hin. cbn in Hin.
        apply andb_true_iff in Hin as (Hin & Hhi).
        apply andb_true_iff in Hin as (Heq & Hlo).
        apply Z.eqb_eq in Heq. apply Z.leb_le in Hlo, Hhi. tauto.
      * unfold reset_calls in Hin. apply in_map_iff in Hin as (s & Heq & _).
        discriminate Heq.
      * cbn in Hin. intuition discriminate.
  - destruct (pty_spawn_not_child os a p av sn op st Hp Hav Hsn Hop Hnot)
      as (_ & Hlog & _).
    eexists. split; [exact Hlog |].
    split; intros; cbn in *; intuition discriminate.
Qed.

(** X6. A child that fails fatally stops at once: when it exits with 127 the
    last call it issued is the one that failed, a [setsid], [open], [dup2]
    or [execve]; nothing is cleaned up after it. *)
Theorem child_stops_at_the_fatal_failure
    (a : spawn_args) (p : string) (av : list string) (sn : string) (op : loc)
    (st : proc) :
  path a = Some p -> argv a = Some av -> slave_name a = Some sn ->
  out_pid a = Some op -> ret (fork_r os) = 0 ->
  fst (pty_spawn os a st) = Exited 127 ->
  exists e,
    hd_error (log (snd (pty_spawn os a st))) = Some e /\
    ev_ret e < 0 /\ fatal_call (ev_call e) = true.
Proof.
  intros Hp Hav Hsn Hop Hchild.
  destruct (pty_spawn_in_child os a p av sn op st Hp Hav Hsn Hop Hchild)
    as (st1 & -> & _).
  apply child_setup_fatal_last.
Qed.

(** X7. The calls of a child that reaches a successful [execve], in order:
    block all signals, [fork], restore the mask, the handler resets, then
    [setsid], [open] of the slave, the controlling-terminal [ioctl] (and the
    forced one only if the first failed), [dup2] onto 0, 1 and 2, [close] of
    the slave descriptor only if it is above 2, [chdir] only for a non-null,
    non-empty directory, and [execve] with the given environment or, when
    [envp] is null, the process environment. *)
Theorem child_call_sequence
    (a : spawn_args) (p : string) (av : list string) (sn : string) (op : loc)
    (st : proc) :
  path a = Some p -> argv a = Some av -> slave_name a = Some sn ->
  out_pid a = Some op -> ret (fork_r os) = 0 -> ~ fatal_failure os ->
  history (snd (pty_spawn os a st))
  = history st ++
    [Ev (Sigmask sigfillset) 0; Ev Fork 0; Ev (Sigmask (sigmask st)) 0] ++
    reset_calls os signal_numbers ++
    calls_before_exec os sn (working_dir a) ++
    [Ev (Execve p av (match envp a with Some e => e | None => environ st end)) 0].
Proof.
  intros Hp Hav Hsn Hop Hchild Hnot.
  destruct (pty_spawn_child_state a p av sn op st Hp Hav Hsn Hop Hchild)
    as (st1 & -> & Hlog1 & _ & _ & Henv & _).
  destruct (child_setup_exec p av (envp a) sn (working_dir a) st1 Hnot)
    as (Hlog & _).
  unfold history. rewrite Hlog, Hlog1, Henv.
  cbn [rev]. rewrite !rev_app_distr, !rev_involutive. cbn [rev app].
  rewrite <- !app_assoc. reflexivity.
Qed.

(** X8. When the child reaches [execve], descriptors 0, 1 and 2 are open,
    the slave descriptor is closed if it was above 2, and every descriptor
    that was open when [pty_spawn] was called, other than these, is still
    open: nothing the child inherited (the PTY master, for one) is closed
    before the new program starts. *)
Theorem child_descriptors_at_exec
    (a : spawn_args) (p : string) (av : list string) (sn : string) (op : loc)
    (st : proc) :
  path a = Some p -> argv a = Some av -> slave_name a = Some sn ->
  out_pid a = Some op -> ret (fork_r os) = 0 -> ~ fatal_failure os ->
  let open_at_exec := fds (snd (pty_spawn os a st)) in
  In 0 open_at_exec /\ In 1 open_at_exec /\ In 2 open_at_exec /\
  (2 < ret (open_r os) -> ~ In (ret (open_r os)) open_at_exec) /\
  (forall fd, In fd (fds st) -> fd <> ret (open_r os) -> In fd open_at_exec).
Proof.
  intros Hp Hav Hsn Hop Hchild Hnot open_at_exec. subst open_at_exec.
  destruct (pty_spawn_child_state a p av sn op st Hp Hav Hsn Hop Hchild)
    as (st1 & -> & _ & Hfds1 & _).
  destruct (child_setup_exec p av (envp a) sn (working_dir a) st1 Hnot)
    as (_ & ->).
  rewrite Hfds1. rewrite Z.gtb_ltb.
  assert (Hkeep : forall x y l, In x l -> x <> y -> In x (remove Z.eq_dec y l)).
  { intros x y l Hin Hne. apply in_in_remove; assumption. }
  destruct (Z.ltb_spec 2 (ret (open_r os))) as [Habove | Hbelow].
  - repeat split.
    + apply Hkeep; [| lia]. right. apply Hkeep; [| lia]. right.
      apply Hkeep; [| lia]. left. reflexivity.
    + apply Hkeep; [| lia]. right. apply Hkeep; [| lia]. left. reflexivity.
    + apply Hkeep; [| lia]. left. reflexivity.
    + intros _. apply remove_In.
    + intros fd Hin Hne. apply Hkeep; [| exact Hne].
      destruct (Z.eq_dec fd 2) as [-> | H2]; [left; reflexivity | right].
      apply Hkeep; [| exact H2].
      destruct (Z.eq_dec fd 1) as [-> | H1]; [left; reflexivity | right].
      apply Hkeep; [| exact H1].
      destruct (Z.eq_dec fd 0) as [-> | H0]; [left; reflexivity | right].
      apply Hkeep; [| exact H0]. right. exact Hin.
  - repeat split.
    + right. apply Hkeep; [| lia]. right. apply Hkeep; [| lia]. left. reflexivity.
    + right. apply Hkeep; [| lia]. left. reflexivity.
    + left. reflexivity.
    + intros Habove. lia.
    + intros fd Hin Hne.
      destruct (Z.eq_dec fd 2) as [-> | H2]; [left; reflexivity | right].
      apply Hkeep; [| exact H2].
      destruct (Z.eq_dec fd 1) as [-> | H1]; [left; reflexivity | right].
      apply Hkeep; [| exact H1].
      destruct (Z.eq_dec fd 0) as [-> | H0]; [left; reflexivity | right].
      apply Hkeep; [| exact H0]. right. exact Hin.
Qed.

(** X9. In the parent, and when [fork] fails, [pty_spawn] leaves the
    descriptor table, the signal dispositions and the environment of the
    calling process as they were. *)
Theorem caller_state_untouched_outside_the_child
    (a : spawn_args) (p : string) (av : list string) (sn : string) (op : loc)
    (st : proc) :
  path a = Some p -> argv a = Some av -> slave_name a = Some sn ->
  out_pid a = Some op -> ret (fork_r os) <> 0 ->
  fds (snd (pty_spawn os a st)) = fds st /\
  handlers (snd (pty_spawn os a st)) = handlers st /\
  environ (snd (pty_spawn os a st)) = environ st.
Proof.
  intros Hp Hav Hsn Hop Hfork. unfold pty_spawn.
  rewrite Hp, Hav, Hsn, Hop. unfold pthread_sigmask.
  cbv [bind sys mret store set_errno get_errno].
  cbn [fst snd ret kernel_effect].
  destruct (Z.eqb_spec (ret (fork_r os)) (-1)) as [Hfail | Hok].
  - cbn. repeat split.
  - destruct (Z.eqb_spec (ret (fork_r os)) 0); [contradiction |].
    cbn. repeat split.
Qed.

End SpawnMore.

(** ** pty_open and pty_resize *)

Section OpenMore.
Context {P : Platform}.
Variable os : open_os.


(** X11. Descriptor accounting of [pty_open].  A run that returns 0 has added
    exactly the master to the descriptor table.  A run that returns anything
    else has added nothing to it and has written neither output.  [close] is
    only ever called on the descriptor [posix_openpt] returned, and only
    after [posix_openpt] succeeded. *)
Theorem pty_open_descriptor_accounting
    (om osn : option loc) (len w h : Z) (st : proc) :
  let r := pty_open os om osn len w h st in
  (fst r = Returned 0 -> fds (snd r) = ret (openpt_r os) :: fds st) /\
  (fst r <> Returned 0 ->
   mem (snd r) = mem st /\ forall fd, In fd (fds (snd r)) -> In fd (fds st)) /\
  exists issued,
    log (snd r) = issued ++ log st /\
    forall fd x, In (Ev (Close fd) x) issued ->
      fd = ret (openpt_r os) /\ 0 <= fd /\ fst r = Returned (-1).
Proof.
  intros r. subst r.
  destruct om as [m |], osn as [s |];
    try (rewrite pty_open_invalid by tauto;
         split; [discriminate |];
         split; [intros _; split; [reflexivity | intros fd Hin; exact Hin] |];
         exists []; split; [reflexivity | intros fd x []]).
  crunch;
    (split; [intros Hret; try discriminate Hret; try reflexivity |]);
    (split;
     [ intros Hret; try (exfalso; apply Hret; reflexivity);
       (split; [reflexivity |]);
       intros fd Hin;
       repeat match type of Hin with
              | context [Z.eq_dec ?x ?y] => destruct (Z.eq_dec x y)
              end;
       try contradiction; try exact Hin;
       try (apply in_remove in Hin; tauto)
     | eexists; split; [find_issued |];
       intros fd x Hin; cbn in Hin;
       intuition (try discriminate; try congruence) ]).
Qed.

Lemma substring_0_length (n : nat) (s : string) :
  String.length (substring 0 n s) = Nat.min n (String.length s).
Proof.
  revert n. induction s as [| c s IH]; intros [| n]; cbn; try reflexivity.
  rewrite IH. reflexivity.
Qed.

Lemma substring_0_all (n : nat) (s : string) :
  (String.length s <= n)%nat -> substring 0 n s = s.
Proof.
  revert n. induction s as [| c s IH]; intros [| n] Hlen; cbn in *;
    try reflexivity; try lia.
  rewrite IH by lia. reflexivity.
Qed.

Lemma substring_0_prefix (n : nat) (s : string) :
  prefix (substring 0 n s) s = true.
Proof.
  revert n. induction s as [| c s IH]; intros [| n]; cbn; try reflexivity.
  destruct (Ascii.ascii_dec c c) as [_ | Hne]; [apply IH | contradiction].
Qed.

(** X12. The slave name [pty_open] stores on success is a prefix of the name
    [ptsname] returned, is shorter than the buffer (so the terminating NUL
    fits), and is the whole name whenever the whole name is shorter than
    the buffer. *)
Theorem pty_open_stored_name_fits
    (om osn : option loc) (len w h : Z) (st : proc) :
  fst (pty_open os om osn len w h st) = Returned 0 ->
  exists m s name,
    om = Some m /\ osn = Some s /\
    mem (snd (pty_open os om osn len w h st))
    = (m, CInt (ret (openpt_r os))) :: (s, CStr name) :: mem st /\
    prefix name (ptsname_str os) = true /\
    Z.of_nat (String.length name) < len /\
    (Z.of_nat (String.length (ptsname_str os)) < len ->
     name = ptsname_str os).
Proof.
  intros Hret.
  destruct (pty_open_returns_0 _ _ _ _ _ _ _ Hret)
    as ((m & s & -> & ->) & Hlen & Ho & Hg & Hu & Hp).
  destruct (pty_open_success os m s len w h st Hlen Ho Hg Hu Hp)
    as (_ & _ & Hmem).
  exists m, s, (copy_name (ptsname_str os) len).
  split; [reflexivity |]. split; [reflexivity |]. split; [exact Hmem |].
  unfold copy_name. split; [apply substring_0_prefix |]. split.
  - rewrite substring_0_length. lia.
  - intros Hfits. apply substring_0_all. lia.
Qed.

(** X13. The window size handed to the kernel is the requested one exactly
    when both dimensions lie between 0 and 65535; this holds for
    [pty_resize] and for the initial push of [pty_open]. *)
Theorem geometry_exact_iff_in_range
    (r : response) (master_fd : Z) (om osn : option loc) (len w h : Z)
    (st : proc) :
  (log (snd (pty_resize r master_fd w h st))
   = Ev (IoctlSWINSZ master_fd (mkWinsize h w 0 0)) (ret r) :: log st
   <-> 0 <= w < 65536 /\ 0 <= h < 65536) /\
  (fst (pty_open os om osn len w h st) = Returned 0 -> 0 < w -> 0 < h ->
   (hd_error (log (snd (pty_open os om osn len w h st)))
    = Some (Ev (IoctlSWINSZ (ret (openpt_r os)) (mkWinsize h w 0 0))
              (ret (winsz_r os)))
    <-> w < 65536 /\ h < 65536)).
Proof.
  assert (Hexact : forall z, z mod 2 ^ 16 = z <-> 0 <= z < 65536).
  { intros z. change (2 ^ 16) with 65536. split.
    - intros Heq. pose proof (Z.mod_pos_bound z 65536 eq_refl). lia.
    - apply Z.mod_small. }
  split.
  - unfold pty_resize. rewrite log_sys. unfold make_winsize, to_ushort. split.
    + intros Heq. injection Heq as Hh Hw. apply Hexact in Hh, Hw. tauto.
    + intros (Hw & Hh). apply Hexact in Hw, Hh. rewrite Hw, Hh. reflexivity.
  - intros Hret Hw Hh.
    destruct (pty_open_returns_0 _ _ _ _ _ _ _ Hret)
      as ((m & s & -> & ->) & Hlen & Ho & Hg & Hu & Hp).
    destruct (pty_open_success os m s len w h st Hlen Ho Hg Hu Hp)
      as (_ & -> & _).
    rewrite !Z.gtb_ltb.
    destruct (Z.ltb_spec 0 w), (Z.ltb_spec 0 h); try lia.
    cbn [andb app hd_error]. unfold make_winsize, to_ushort. split.
    + intros Heq. injection Heq as Hh' Hw'. apply Hexact in Hh', Hw'. lia.
    + intros (Hw' & Hh').
      assert (Hw2 : w mod 2 ^ 16 = w) by (apply Hexact; lia).
      assert (Hh2 : h mod 2 ^ 16 = h) by (apply Hexact; lia).
      rewrite Hw2, Hh2. reflexivity.
Qed.

End OpenMore.

(** ** pty_wait *)

Lemma issues_only_store (allowed : call -> bool) (p : loc) (c : cell) :
  issues_only allowed (store p c).
Proof. intros st. exists []. split; [reflexivity | constructor]. Qed.


Section WaitMore.
Context {P : Platform}.
Variable os : wait_os.
Variable pid : Z.

Lemma issues_only_poll_loop (timeout_ms : Z) (out_status : option loc)
    (fuel : nat) :
  forall (i : nat) (elapsed : Z),
    issues_only (poll_call pid)
      (poll_loop os pid timeout_ms out_status fuel i elapsed).
Proof.
  induction fuel as [| fuel IH]; intros i elapsed; cbn [poll_loop];
    (destruct (elapsed <? timeout_ms); [| apply issues_only_mret]).
  - intros st. exists []. split; [reflexivity | constructor].
  - apply issues_only_bind_sys; [cbn; rewrite Z.eqb_refl; reflexivity |].
    destruct (_ <? _); [apply issues_only_mret |].
    destruct (_ >? _).
    + apply issues_only_bind; [| intros _; apply issues_only_mret].
      unfold report_status. destruct out_status;
        [apply issues_only_store | apply issues_only_mret].
    + apply issues_only_bind_sys; [reflexivity | apply IH].
Qed.

(** X14. A bounded wait never blocks: every call it issues is either a
    non-blocking [waitpid] on the given pid or a sleep of 10000
    microseconds, whatever the bound and however long the loop runs. *)
Theorem bounded_wait_only_polls_and_sleeps
    (fuel : nat) (timeout_ms : Z) (out_status : option loc) (st : proc) :
  0 <= timeout_ms ->
  exists issued,
    log (snd (pty_wait os fuel pid timeout_ms out_status st)) = issued ++ log st /\
    Forall (fun e => ev_call e = Waitpid pid true \/ ev_call e = Usleep 10000)
           issued.
Proof.
  intros Hpos. unfold pty_wait.
  destruct (Z.ltb_spec timeout_ms 0); [lia |].
  destruct (issues_only_poll_loop timeout_ms out_status fuel 0%nat 0 st)
    as (issued & Hlog & Hall).
  exists issued. split; [exact Hlog |].
  apply Forall_impl with (2 := Hall).
  intros [c x] Hc. cbn in *. destruct c; try discriminate Hc.
  - apply andb_true_iff in Hc as (Hpid & ->). apply Z.eqb_eq in Hpid.
    left. congruence.
  - apply Z.eqb_eq in Hc. right. congruence.
Qed.

Lemma poll_loop_null_out_status (timeout_ms : Z) (out_status : option loc)
    (fuel : nat) :
  forall (i : nat) (elapsed : Z) (st : proc),
    let with_out := poll_loop os pid timeout_ms out_status fuel i elapsed st in
    let without := poll_loop os pid timeout_ms None fuel i elapsed st in
    fst with_out = fst without /\
    log (snd with_out) = log (snd without) /\
    errno (snd with_out) = errno (snd without) /\
    mem (snd without) = mem st.
Proof.
  induction fuel as [| fuel IH]; intros i elapsed st; cbn [poll_loop];
    (destruct (elapsed <? timeout_ms); [| repeat split]).
  - repeat split.
  - rewrite !(bind_returned _ _ _ _ (sys_returned _ _ _)).
    destruct (_ <? _); [repeat split |].
    destruct (_ >? _).
    + destruct out_status; repeat split.
    + rewrite !(bind_returned _ _ _ _ (sys_returned _ _ _)).
      destruct (IH (S i) (wrap_int (elapsed + 10))
                  (snd (sys (Usleep 10000) (usleep_r os i)
                          (snd (sys (Waitpid pid true) (poll_r os i) st)))))
        as (Hret & Hlog & Herrno & Hmem).
      repeat split; assumption.
Qed.

(** X15. A null [out_status] is accepted in both modes: the return value, the
    calls issued and [errno] are the same as with a non-null pointer, and
    nothing is stored. *)
Theorem null_out_status_only_skips_the_store
    (fuel : nat) (timeout_ms : Z) (out_status : option loc) (st : proc) :
  let with_out := pty_wait os fuel pid timeout_ms out_status st in
  let without := pty_wait os fuel pid timeout_ms None st in
  fst with_out = fst without /\
  log (snd with_out) = log (snd without) /\
  errno (snd with_out) = errno (snd without) /\
  mem (snd without) = mem st.
Proof.
  unfold pty_wait. destruct (timeout_ms <? 0).
  - rewrite !(bind_returned _ _ _ _ (sys_returned _ _ _)).
    destruct (_ <? _); [repeat split |].
    destruct out_status; repeat split.
  - apply poll_loop_null_out_status.
Qed.



(** X17. Under the POSIX reading of the wait-status macros, the value stored
    in [*out_status] lies between -1 and 255; it is -1 exactly for a status
    that is neither an exit nor a signal death, and at least 128 for a
    signal death. *)
Theorem exit_status_range (Hposix : PosixWaitMacros P) (status : Z) :
  -1 <= exit_status status <= 255 /\
  (exit_status status = -1 <->
   WIFEXITED status = false /\ WIFSIGNALED status = false) /\
  (WIFEXITED status = false -> WIFSIGNALED status = true ->
   128 <= exit_status status <= 255).
Proof.
  pose proof (WEXITSTATUS_range P Hposix status) as Hexit.
  pose proof (WTERMSIG_range P Hposix status) as Hsig.
  unfold exit_status.
  destruct (WIFEXITED status), (WIFSIGNALED status);
    rewrite ?wrap_int_id by (unfold INT_MIN, INT_MAX; lia);
    repeat split; intros; try lia; try discriminate;
    try (intuition discriminate).
Qed.

Lemma length_idle_rounds (i k : nat) :
  List.length (idle_rounds os pid i k) = (2 * k)%nat.
Proof.
  revert i. induction k as [| k IH]; intros i; [reflexivity |].
  cbn [idle_rounds]. rewrite length_app, IH. cbn. lia.
Qed.

(** Either the first [n] polls all find the child running, or there is a
    first one that does not. *)
Lemma first_decisive_poll (n : nat) :
  idle_before os n \/
  exists k, (k < n)%nat /\ idle_before os k /\ ret (poll_r os k) <> 0.
Proof.
  induction n as [| n [Hidle | (k & Hk & Hidle & Hne)]].
  - left. intros j Hj. lia.
  - destruct (Z.eq_dec (ret (poll_r os n)) 0) as [Hzero | Hne].
    + left. intros j Hj.
      destruct (Nat.eq_dec j n) as [-> | Hjn]; [exact Hzero | apply Hidle; lia].
    + right. exists n. repeat split; [lia | exact Hidle | exact Hne].
  - right. exists k. repeat split; [lia | exact Hidle | exact Hne].
Qed.

(** X18. For a bound of at most 2147483640 ms a bounded wait always returns,
    after at most [polls_before_timeout timeout_ms] polls (twice as many
    calls, counting the sleeps): 1 when all these polls find the child
    running, and otherwise 0 or -1 according to the sign of the first poll
    that does not answer 0. *)
Theorem bounded_wait_returns_within_the_bound
    (fuel : nat) (timeout_ms : Z) (out_status : option loc) (st : proc) :
  0 <= timeout_ms <= 2147483640 ->
  (polls_before_timeout timeout_ms <= fuel)%nat ->
  exists v st' issued,
    pty_wait os fuel pid timeout_ms out_status st = (Returned v, st') /\
    log st' = issued ++ log st /\
    (List.length issued <= 2 * polls_before_timeout timeout_ms)%nat /\
    ((v = 1 /\ idle_before os (polls_before_timeout timeout_ms)) \/
     exists k, (k < polls_before_timeout timeout_ms)%nat /\ idle_before os k /\
       ((0 < ret (poll_r os k) /\ v = 0) \/ (ret (poll_r os k) < 0 /\ v = -1))).
Proof.
  intros Hrange Hfuel.
  assert (Hn : Z.of_nat (polls_before_timeout timeout_ms) = (timeout_ms + 9) / 10).
  { unfold polls_before_timeout. rewrite Z2Nat.id; [reflexivity |].
    apply Z.div_pos; lia. }
  assert (Hdiv : 10 * ((timeout_ms + 9) / 10) <= timeout_ms + 9
                 < 10 * ((timeout_ms + 9) / 10) + 10).
  { pose proof (Z.mul_div_le (timeout_ms + 9) 10 eq_refl).
    pose proof (Z.mul_succ_div_gt (timeout_ms + 9) 10 eq_refl). lia. }
  destruct (first_decisive_poll (polls_before_timeout timeout_ms))
    as [Hidle | (k & Hk & Hidle & Hne)].
  - assert (Hmax : 10 * Z.of_nat (polls_before_timeout timeout_ms) <= INT_MAX)
      by (unfold INT_MAX; lia).
    assert (Hpos : 0 <= timeout_ms) by lia.
    destruct (pty_wait_gives_up os pid timeout_ms out_status fuel st
                Hpos Hmax Hfuel Hidle)
      as (st' & Hrun & _ & Hlog).
    exists 1, st', (idle_rounds os pid 0 (polls_before_timeout timeout_ms)).
    split; [exact Hrun |]. split; [exact Hlog |].
    split; [rewrite length_idle_rounds; lia |]. left. split; [reflexivity | exact Hidle].
  - assert (Hint : 0 <= timeout_ms <= INT_MAX) by (unfold INT_MAX; lia).
    assert (Hreach : 10 * Z.of_nat k < timeout_ms) by lia.
    assert (Hk' : (k < fuel)%nat) by lia.
    destruct (pty_wait_decided_at os pid timeout_ms out_status k fuel st
                Hint Hreach Hk' Hidle Hne)
      as (st' & Hrun & _ & Hlog).
    exists (if ret (poll_r os k) <? 0 then -1 else 0), st',
      (Ev (Waitpid pid true) (ret (poll_r os k)) :: idle_rounds os pid 0 k).
    split; [exact Hrun |]. split; [exact Hlog |].
    split; [cbn [List.length]; rewrite length_idle_rounds; lia |].
    right. exists k. split; [exact Hk |]. split; [exact Hidle |].
    destruct (Z.ltb_spec (ret (poll_r os k)) 0); [right | left]; split;
      try reflexivity; lia.
Qed.

End WaitMore.

(** ** Runs on Linux *)

Lemma pty_spawn_issues_no_call_iff_null_witness :
  let r := pty_spawn (P := Linux.platform) Scenario.in_child
             Sample.no_out_pid_request Scenario.st0 in
  log (snd r) = [] /\ fst r = Returned (-1).
Proof.
  destruct (pty_spawn_issues_no_call_iff_null (P := Linux.platform)
              Scenario.in_child Sample.no_out_pid_request Scenario.st0)
    as (Hiff & Hnull).
  intros r. split.
  - apply Hiff. right. right. right. reflexivity.
  - apply Hnull. reflexivity.
Defined.

Lemma child_resets_exactly_the_catchable_signals_witness :
  exists issued,
    log (snd (pty_spawn (P := Linux.platform) Scenario.in_child
                Scenario.sh_request Scenario.st0)) = issued ++ [] /\
    In (Ev (Sigaction 15 SIG_DFL) 0) issued /\
    ~ In (Ev (Sigaction 9 SIG_DFL) 0) issued.
Proof.
  destruct (child_resets_exactly_the_catchable_signals (P := Linux.platform)
              Scenario.in_child Scenario.sh_request
              "/bin/sh"%string ["sh"%string] "/dev/pts/4"%string 0%nat
              Scenario.st0 eq_refl eq_refl eq_refl eq_refl eq_refl)
    as (issued & Hlog & Hiff).
  exists issued. split; [exact Hlog |]. split.
  - apply Hiff. cbn. repeat split; try lia; discriminate.
  - intros Hin. apply Hiff in Hin. cbn in Hin.
    destruct Hin as ((_ & Hkill & _) & _). apply Hkill. reflexivity.
Defined.

Lemma child_dispositions_at_exit_witness :
  handlers (snd (pty_spawn (P := Linux.platform) Scenario.in_child
                   Scenario.sh_request Scenario.st0)) 2 = SIG_DFL /\
  handlers (snd (pty_spawn (P := Linux.platform) Scenario.in_child
                   Scenario.sh_request Scenario.st0)) 9
  = handlers Scenario.st0 9.
Proof.
  split.
  - destruct (child_dispositions_at_exit (P := Linux.platform)
                Scenario.in_child Scenario.sh_request
                "/bin/sh"%string ["sh"%string] "/dev/pts/4"%string 0%nat
                Scenario.st0 2 eq_refl eq_refl eq_refl eq_refl eq_refl)
      as (Hreset & _).
    apply Hreset; cbn; try lia; try discriminate; reflexivity.
  - destruct (child_dispositions_at_exit (P := Linux.platform)
                Scenario.in_child Scenario.sh_request
                "/bin/sh"%string ["sh"%string] "/dev/pts/4"%string 0%nat
                Scenario.st0 9 eq_refl eq_refl eq_refl eq_refl eq_refl)
      as (_ & Hkept).
    apply Hkept. right. right. left. reflexivity.
Defined.

Lemma spawn_closes_only_its_slave_descriptor_witness :
  exists issued,
    log (snd (pty_spawn (P := Linux.platform) Scenario.in_child
                Scenario.sh_request Sample.st_with_master)) = issued ++ [] /\
    In (Ev (Close 3) 0) issued /\
    (ret (fork_r Scenario.in_child) = 0 /\
     3 = ret (open_r Scenario.in_child) /\ 2 < 3).
Proof.
  destruct (spawn_closes_only_its_slave_descriptor (P := Linux.platform)
              Scenario.in_child Scenario.sh_request Sample.st_with_master)
    as (issued & Hlog & Hclose & _).
  assert (Hin : In (Ev (Close 3) 0) issued).
  { change (log Sample.st_with_master) with (@nil event) in Hlog.
    rewrite app_nil_r in Hlog. rewrite <- Hlog.
    vm_compute. right. left. reflexivity. }
  exists issued. split; [exact Hlog |]. split; [exact Hin |].
  exact (Hclose 3 0 Hin).
Defined.

Lemma child_stops_at_the_fatal_failure_witness :
  exists e,
    hd_error (log (snd (pty_spawn (P := Linux.platform)
                          Scenario.in_child_open_fails Scenario.sh_request
                          Scenario.st0))) = Some e /\
    ev_ret e < 0 /\ fatal_call (ev_call e) = true.
Proof.
  apply (child_stops_at_the_fatal_failure (P := Linux.platform)
           Scenario.in_child_open_fails Scenario.sh_request
           "/bin/sh"%string ["sh"%string] "/dev/pts/4"%string 0%nat
           Scenario.st0 eq_refl eq_refl eq_refl eq_refl eq_refl).
  vm_compute. reflexivity.
Defined.

Lemma in_child_not_fatal : ~ fatal_failure Scenario.in_child.
Proof.
  unfold fatal_failure. cbn.
  intros [H | [H | [H | [H | [H | H]]]]];
    try discriminate H; apply H; reflexivity.
Defined.

Lemma child_call_sequence_witness :
  history (snd (pty_spawn (P := Linux.platform) Scenario.in_child
                  Scenario.sh_request Scenario.st0))
  = history Scenario.st0 ++
    [Ev (Sigmask (sigfillset (P := Linux.platform))) 0; Ev Fork 0;
     Ev (Sigmask (sigmask Scenario.st0)) 0] ++
    reset_calls (P := Linux.platform) Scenario.in_child
      (signal_numbers (P := Linux.platform)) ++
    calls_before_exec (P := Linux.platform) Scenario.in_child
      "/dev/pts/4" (working_dir Scenario.sh_request) ++
    [Ev (Execve "/bin/sh" ["sh"%string]
           (match envp Scenario.sh_request with
            | Some e => e
            | None => environ Scenario.st0
            end)) 0].
Proof.
  apply (child_call_sequence (P := Linux.platform)
           Scenario.in_child Scenario.sh_request
           "/bin/sh"%string ["sh"%string] "/dev/pts/4"%string 0%nat
           Scenario.st0 eq_refl eq_refl eq_refl eq_refl eq_refl
           in_child_not_fatal).
Defined.

Lemma child_descriptors_at_exec_witness :
  let open_at_exec :=
    fds (snd (pty_spawn (P := Linux.platform) Scenario.in_child
                Scenario.sh_request Sample.st_with_master)) in
  In 0 open_at_exec /\ In 5 open_at_exec /\ ~ In 3 open_at_exec.
Proof.
  destruct (child_descriptors_at_exec (P := Linux.platform)
              Scenario.in_child Scenario.sh_request
              "/bin/sh"%string ["sh"%string] "/dev/pts/4"%string 0%nat
              Sample.st_with_master eq_refl eq_refl eq_refl eq_refl eq_refl
              in_child_not_fatal)
    as (H0 & _ & _ & Hslave & Hkept).
  intros open_at_exec. split; [exact H0 |]. split.
  - apply Hkept; [cbn; tauto | discriminate].
  - apply Hslave. cbn. lia.
Defined.

Lemma caller_state_untouched_outside_the_child_witness :
  fds (snd (pty_spawn (P := Linux.platform) Scenario.fork_fails
              Scenario.sh_request Sample.st_with_master)) = [0; 1; 2; 5].
Proof.
  destruct (caller_state_untouched_outside_the_child (P := Linux.platform)
              Scenario.fork_fails Scenario.sh_request
              "/bin/sh"%string ["sh"%string] "/dev/pts/4"%string 0%nat
              Sample.st_with_master eq_refl eq_refl eq_refl eq_refl)
    as (Hfds & _).
  - discriminate.
  - exact Hfds.
Defined.


Lemma pty_open_descriptor_accounting_witness :
  let r := pty_open (P := Linux.platform) Scenario.unlock_fails
             (Some 0%nat) (Some 1%nat) 256 80 24 Scenario.st0 in
  mem (snd r) = [] /\ forall fd, In fd (fds (snd r)) -> In fd [0; 1; 2].
Proof.
  destruct (pty_open_descriptor_accounting (P := Linux.platform)
              Scenario.unlock_fails (Some 0%nat) (Some 1%nat) 256 80 24
              Scenario.st0)
    as (_ & Hfail & _).
  intros r. apply Hfail. vm_compute. discriminate.
Defined.

Lemma pty_open_stored_name_fits_witness :
  exists m s,
    mem (snd (pty_open (P := Linux.platform) Scenario.open_ok
                (Some 0%nat) (Some 1%nat) 256 80 24 Scenario.st0))
    = [(m, CInt 5); (s, CStr "/dev/pts/4")].
Proof.
  destruct (pty_open_stored_name_fits (P := Linux.platform)
              Scenario.open_ok (Some 0%nat) (Some 1%nat) 256 80 24
              Scenario.st0 eq_refl)
    as (m & s & name & _ & _ & Hmem & _ & _ & Hwhole).
  exists m, s. rewrite Hmem, Hwhole; [reflexivity |]. cbn. lia.
Defined.

Lemma geometry_exact_iff_in_range_witness :
  log (snd (pty_resize (ok 0) 5 80 24 Scenario.st0))
  = [Ev (IoctlSWINSZ 5 (mkWinsize 24 80 0 0)) 0].
Proof.
  destruct (geometry_exact_iff_in_range (P := Linux.platform)
              Scenario.open_ok (ok 0) 5 (Some 0%nat) (Some 1%nat) 256 80 24
              Scenario.st0)
    as ((_ & Hexact) & _).
  apply Hexact. lia.
Defined.

Lemma bounded_wait_only_polls_and_sleeps_witness :
  exists issued,
    log (snd (pty_wait (P := Linux.platform)
                Scenario.child_killed_at_third_poll 3 77 1000 (Some 0%nat)
                Scenario.st0)) = issued ++ [] /\
    Forall (fun e => ev_call e = Waitpid 77 true \/ ev_call e = Usleep 10000)
           issued.
Proof.
  apply (bounded_wait_only_polls_and_sleeps (P := Linux.platform)
           Scenario.child_killed_at_third_poll 77 3 1000 (Some 0%nat)
           Scenario.st0).
  lia.
Defined.


Lemma exit_status_range_witness :
  -1 <= exit_status (P := Linux.platform) 9 <= 255 /\
  128 <= exit_status (P := Linux.platform) 9 <= 255.
Proof.
  destruct (exit_status_range (P := Linux.platform) linux_posix_wait_macros 9)
    as (Hrange & _ & Hsignal).
  split; [exact Hrange |]. apply Hsignal; reflexivity.
Defined.

Lemma bounded_wait_returns_within_the_bound_witness :
  exists v st' issued,
    pty_wait (P := Linux.platform) Scenario.child_killed_at_third_poll
      100 77 1000 None Scenario.st0 = (Returned v, st') /\
    log st' = issued ++ [] /\
    (List.length issued <= 2 * polls_before_timeout 1000)%nat /\
    ((v = 1 /\
      idle_before (P := Linux.platform) Scenario.child_killed_at_third_poll
        (polls_before_timeout 1000)) \/
     exists k, (k < polls_before_timeout 1000)%nat /\
       idle_before (P := Linux.platform) Scenario.child_killed_at_third_poll k /\
       ((0 < ret (poll_r Scenario.child_killed_at_third_poll k) /\ v = 0) \/
        (ret (poll_r Scenario.child_killed_at_third_poll k) < 0 /\ v = -1))).
Proof.
  apply (bounded_wait_returns_within_the_bound (P := Linux.platform)
           Scenario.child_killed_at_third_poll 77 100 1000 None Scenario.st0).
  - lia.
  - vm_compute. lia.
Defined.

Lemma out_pid_written_only_by_parent_witness :
  let r := pty_spawn (P := Linux.platform) Sample.in_parent
             Scenario.sh_request Scenario.st0 in
  fst r = Returned 0 /\ mem (snd r) = [(0%nat, CInt 4242)].
Proof.
  intros r.
  destruct (out_pid_written_only_by_parent (P := Linux.platform)
              Sample.in_parent Scenario.sh_request Scenario.st0)
    as [(Hret & _ & _ & op & Hop & Hmem) | (Hret & _)].
  - split; [exact Hret |]. injection Hop as <-. exact Hmem.
  - exfalso. apply Hret. vm_compute. reflexivity.
Defined.

Lemma null_out_status_only_skips_the_store_witness :
  fst (pty_wait (P := Linux.platform) Scenario.child_exited_3 0 77 (-1)
         (Some 0%nat) Scenario.st0)
  = fst (pty_wait (P := Linux.platform) Scenario.child_exited_3 0 77 (-1)
           None Scenario.st0) /\
  mem (snd (pty_wait (P := Linux.platform) Scenario.child_exited_3 0 77 (-1)
              None Scenario.st0)) = [].
Proof.
  destruct (null_out_status_only_skips_the_store (P := Linux.platform)
              Scenario.child_exited_3 77 0 (-1) (Some 0%nat) Scenario.st0)
    as (Hret & _ & _ & Hmem).
  split; [exact Hret | exact Hmem].
Defined.
